(** * Conway's Game of Life: a shallow embedding of [john_conways.py] and
    [main.py], and the properties of the generation step, the neighbour
    count and the input handlers.

    Python integers are unbounded, so they are [Z].  A Python list is a
    [list]; indexing goes through [getitem], which raises [IndexError]
    outside the list and wraps negative indices the way Python does.
    Exceptions are values of [result].  The random module is a tape of raw
    draws together with a read position. *)

From Stdlib Require Import ZArith List Bool Lia.
From stdpp Require Import base numbers list.

Local Open Scope Z_scope.

(** ** Exceptions *)

Inductive exn : Type := IndexError | ValueError | ZeroDivisionError.

Inductive result (A : Type) : Type :=
| Ok (a : A)
| Raise (e : exn).

Arguments Ok {A} a.
Arguments Raise {A} e.

Definition bind {A B : Type} (c : result A) (k : A -> result B) : result B :=
  match c with
  | Ok a => k a
  | Raise e => Raise e
  end.

Definition result_map {A B : Type} (f : A -> B) (c : result A) : result B :=
  match c with
  | Ok a => Ok (f a)
  | Raise e => Raise e
  end.

Notation "'let*' x ':=' c 'in' k" := (bind c (fun x => k))
  (at level 10, x name, c at level 100, k at level 200).
Notation "'let*' ' p ':=' c 'in' k" := (bind c (fun p => k))
  (at level 10, p pattern, c at level 100, k at level 200).

(** ** Python lists *)

Definition len {A : Type} (l : list A) : Z := Z.of_nat (length l).

(** [l[i]] with a negative [i] counts from the end. *)
Definition norm_index {A : Type} (l : list A) (i : Z) : Z :=
  if i <? 0 then i + len l else i.

Definition getitem {A : Type} (l : list A) (i : Z) : result A :=
  let j := norm_index l i in
  if (j <? 0) || (len l <=? j) then Raise IndexError
  else match l !! Z.to_nat j with
       | Some a => Ok a
       | None => Raise IndexError
       end.

(** [range(n)]: empty when [n <= 0]. *)
Definition range (n : Z) : list Z := seqZ 0 n.

(** A [for] loop whose body may raise; the loop variable ranges over [l]
    and the mutable state is threaded through. *)
Fixpoint for_each {I S : Type} (body : I -> S -> result S) (l : list I) (s : S)
  : result S :=
  match l with
  | [] => Ok s
  | i :: l' => let* s' := body i s in for_each body l' s'
  end.

(** ** The random module *)

Record Random : Type := mkRandom { tape : nat -> Z; pos : nat }.

(** [random.randint(a, b)]: some integer [N] with [a <= N <= b]; an empty
    range raises [ValueError]. *)
Definition randint (a b : Z) (r : Random) : result (Z * Random) :=
  if b <? a then Raise ValueError
  else Ok (a + tape r (pos r) mod (b - a + 1), mkRandom (tape r) (S (pos r))).

(** ** class Cell *)

Record Cell : Type := mkCell { is_alive : bool }.

Abbreviation cells := (list (list Cell)).

Definition directions : list (Z * Z) :=
  [ (-1, -1); (-1, 0); (-1, 1);
    (0, -1);           (0, 1);
    (1, -1);  (1, 0);  (1, 1) ].

(** The body of [check_neighbors]'s loop, with [count] as accumulator. *)
Fixpoint check_neighbors_loop (grid : cells) (x y : Z) (dirs : list (Z * Z))
  (count : Z) : result Z :=
  match dirs with
  | [] => Ok count
  | (dx, dy) :: rest =>
      let nx := x + dx in
      let ny := y + dy in
      if (0 <=? nx) && (nx <? len grid) then
        let* col0 := getitem grid 0 in
        if (0 <=? ny) && (ny <? len col0) then
          let* col := getitem grid nx in
          let* c := getitem col ny in
          if is_alive c then check_neighbors_loop grid x y rest (count + 1)
          else check_neighbors_loop grid x y rest count
        else check_neighbors_loop grid x y rest count
      else check_neighbors_loop grid x y rest count
  end.

Definition check_neighbors (self : Cell) (grid : cells) (x y : Z) : result Z :=
  check_neighbors_loop grid x y directions 0.

(** [grid[x][y].is_alive = v] *)
Definition set_is_alive (grid : cells) (x y : Z) (v : bool) : result cells :=
  let* col := getitem grid x in
  let* _ := getitem col y in
  Ok (<[Z.to_nat (norm_index grid x) :=
          <[Z.to_nat (norm_index col y) := mkCell v]> col]> grid).

(** ** class Grid *)

Record Grid : Type := mkGrid {
  width : Z;
  height : Z;
  cell_size : Z;
  grid : cells;
  alive_count : Z;
  spawing : bool
}.

(** [[[Cell(False) for _ in range(height)] for _ in range(width)]] *)
Definition fresh_cells (w h : Z) : cells :=
  map (fun _ => map (fun _ => mkCell false) (range h)) (range w).

Definition Grid_init (w h cs : Z) : Grid :=
  {| width := w; height := h; cell_size := cs;
     grid := fresh_cells w h; alive_count := 0; spawing := false |}.

(** The variables [update] mutates while it scans the grid: the old
    generation [self.grid] (written by a spawn), [new_grid],
    [new_alive_count], [life_chance] and the random module. *)
Record Scan : Type := mkScan {
  self_grid : cells;
  new_grid : cells;
  new_alive_count : Z;
  life_chance : Z;
  rnd : Random
}.

(** [neighbors in [2, 3]] *)
Definition in_2_3 (n : Z) : bool := (n =? 2) || (n =? 3).

(** The body of the inner loop of [update], at cell [(x, y)].  The source
    reads [self.grid[x][y]] twice before anything is written; [c] is that
    cell.  A spawn writes the old generation [self.grid], not [new_grid]. *)
Definition update_cell (spawning : bool) (x y : Z) (s : Scan) : result Scan :=
  let* '(rand_num, r) := randint 1 (life_chance s) (rnd s) in
  let* col := getitem (self_grid s) x in
  let* c := getitem col y in
  let* neighbors := check_neighbors c (self_grid s) x y in
  let* s1 :=
    if is_alive c then
      let* ng := set_is_alive (new_grid s) x y (in_2_3 neighbors) in
      Ok (mkScan (self_grid s) ng (new_alive_count s) (life_chance s) r)
    else
      let* ng := set_is_alive (new_grid s) x y (neighbors =? 3) in
      if (rand_num =? 1) && (life_chance s <? 1000) && spawning then
        let* og := set_is_alive (self_grid s) x y true in
        Ok (mkScan og ng (new_alive_count s) (life_chance s + 1) r)
      else
        Ok (mkScan (self_grid s) ng (new_alive_count s) (life_chance s) r) in
  let* ncol := getitem (new_grid s1) x in
  let* nc := getitem ncol y in
  if is_alive nc then
    Ok (mkScan (self_grid s1) (new_grid s1) (new_alive_count s1 + 1)
          (life_chance s1) (rnd s1))
  else Ok s1.

(** The state in which [update] enters its loops. *)
Definition update_enter (r : Random) (g : Grid) : Scan :=
  mkScan (grid g) (fresh_cells (width g) (height g)) 0 1 r.

(** The two nested loops of [update]. *)
Definition update_scan (r : Random) (g : Grid) : result Scan :=
  for_each
    (fun x s => for_each (fun y s' => update_cell (spawing g) x y s')
                  (range (height g)) s)
    (range (width g)) (update_enter r g).

(** The two assignments that end [update]. *)
Definition update_leave (g : Grid) (s : Scan) : Grid :=
  {| width := width g; height := height g; cell_size := cell_size g;
     grid := new_grid s; alive_count := new_alive_count s;
     spawing := spawing g |}.

Definition update (r : Random) (g : Grid) : result (Grid * Random) :=
  let* s := update_scan r g in
  Ok (update_leave g s, rnd s).

(** ** main.py *)

Record Mouse : Type := mkMouse { pressed : bool; mouse_pos : Z * Z }.

(** [a // b] *)
Definition floordiv (a b : Z) : result Z :=
  if b =? 0 then Raise ZeroDivisionError else Ok (a / b).

Definition with_grid (g : Grid) (cs : cells) : Grid :=
  {| width := width g; height := height g; cell_size := cell_size g;
     grid := cs; alive_count := alive_count g; spawing := spawing g |}.

Definition handle_mouse_input (m : Mouse) (g : Grid) (cell_size : Z)
  : result Grid :=
  if pressed m then
    let '(x, y) := mouse_pos m in
    let* grid_x := floordiv x cell_size in
    let* grid_y := floordiv y cell_size in
    if (0 <=? grid_x) && (grid_x <? width g) &&
       ((0 <=? grid_y) && (grid_y <? height g)) then
      let* col := getitem (grid g) grid_x in
      let* c := getitem col grid_y in
      let* cs := set_is_alive (grid g) grid_x grid_y (negb (is_alive c)) in
      Ok (with_grid g cs)
    else Ok g
  else Ok g.

Inductive Key : Type := K_SPACE | K_EQUALS | K_MINUS | K_s | K_other (code : Z).

Inductive Event : Type := KEYDOWN (key : Key) | QUIT | OtherEvent (type : Z).

Definition with_spawing (g : Grid) (b : bool) : Grid :=
  {| width := width g; height := height g; cell_size := cell_size g;
     grid := grid g; alive_count := alive_count g; spawing := b |}.

(** The variables of [main] that [process_input] reads and returns,
    together with the grid object it mutates. *)
Record Controls : Type := mkControls {
  game_world : Grid;
  flip_flop : Z;
  paused : bool;
  simulation_speed : Z
}.

Definition process_input (event : Event) (c : Controls) : Controls :=
  match event with
  | KEYDOWN K_SPACE =>
      mkControls (game_world c) (flip_flop c) (negb (paused c))
        (simulation_speed c)
  | KEYDOWN K_EQUALS =>
      mkControls (game_world c) (flip_flop c) (paused c)
        (Z.min (simulation_speed c + 5) 120)
  | KEYDOWN K_MINUS =>
      mkControls (game_world c) (flip_flop c) (paused c)
        (Z.max (simulation_speed c - 5) 5)
  | KEYDOWN K_s =>
      if flip_flop c =? 1 then
        mkControls (with_spawing (game_world c) false) 2 (paused c)
          (simulation_speed c)
      else
        mkControls (with_spawing (game_world c) true) 1 (paused c)
          (simulation_speed c)
  | _ => c
  end.

(** The values [main] starts from. *)
Definition main_init : Controls :=
  mkControls (Grid_init 100 100 8) 1 true 10.

(** The [for event in pygame.event.get()] loop of [main], without the
    [running] flag. *)
Definition process_events (events : list Event) (c : Controls) : Controls :=
  fold_left (fun c' e => process_input e c') events c.

(** ** Specification-side notions

    These follow the wording of the specification, not the code, and are
    what the code's functions are compared with. *)

(** The cell stored at [(x, y)], if that position is inside the grid. *)
Definition cell_at (g : cells) (x y : Z) : option Cell :=
  if (x <? 0) || (y <? 0) then None
  else match g !! Z.to_nat x with
       | Some col => col !! Z.to_nat y
       | None => None
       end.

(** A position outside the grid counts as dead. *)
Definition alive_at (g : cells) (x y : Z) : bool :=
  match cell_at g x y with
  | Some c => is_alive c
  | None => false
  end.

(** The 8 positions horizontally, vertically and diagonally adjacent to
    [(x, y)]: the 3 by 3 block around it without its centre. *)
Definition moore_neighborhood (x y : Z) : list (Z * Z) :=
  List.filter (fun p => negb ((fst p =? x) && (snd p =? y)))
    (flat_map (fun dx => map (fun dy => (x + dx, y + dy)) [-1; 0; 1])
       [-1; 0; 1]).

Definition alive_neighbors (g : cells) (x y : Z) : Z :=
  Z.of_nat (length (List.filter (fun p => alive_at g (fst p) (snd p))
                      (moore_neighborhood x y))).

(** Conway's rule. *)
Definition conway_rule (alive : bool) (n : Z) : bool :=
  if alive then (n =? 2) || (n =? 3) else n =? 3.

(** The number of cells of a column, and of a grid, whose [is_alive] is
    true. *)
Fixpoint alive_in_column (col : list Cell) : Z :=
  match col with
  | [] => 0
  | c :: col' => (if is_alive c then 1 else 0) + alive_in_column col'
  end.

Fixpoint alive_in_cells (g : cells) : Z :=
  match g with
  | [] => 0
  | col :: g' => alive_in_column col + alive_in_cells g'
  end.

(** A [w] by [h] list of lists. *)
Definition rect (w h : Z) (g : cells) : Prop :=
  len g = w /\ Forall (fun col => len col = h) g.

(** What [Grid.__init__] establishes and every method keeps: [grid] has
    [width] columns of [height] cells (none when the number is negative). *)
Definition wf (g : Grid) : Prop :=
  rect (Z.max 0 (width g)) (Z.max 0 (height g)) (grid g).

(** A position of a [w] by [h] grid, and one of its four corners. *)
Definition inside (w h x y : Z) : Prop :=
  0 <= x < w /\ 0 <= y < h.

Definition corner (w h x y : Z) : Prop :=
  (x = 0 \/ x = w - 1) /\ (y = 0 \/ y = h - 1).

(** ** Derived notions used by the proofs *)

(** The neighbour of [(x, y)] in direction [d]. *)
Definition shift (x y : Z) (d : Z * Z) : Z * Z := (x + fst d, y + snd d).

(** How many of the positions [ps] hold an alive cell. *)
Definition count_alive_at (g : cells) (ps : list (Z * Z)) : Z :=
  Z.of_nat (length (List.filter (fun p => alive_at g (fst p) (snd p)) ps)).

(** The grid [set_is_alive] returns for a position inside the grid. *)
Definition put (g : cells) (x y : Z) (v : bool) : cells :=
  match g !! Z.to_nat x with
  | Some col => <[Z.to_nat x := <[Z.to_nat y := mkCell v]> col]> g
  | None => g
  end.

(** The value [rand_num] takes at the next cell. *)
Definition draw (s : Scan) : Z :=
  1 + tape (rnd s) (pos (rnd s)) mod (life_chance s - 1 + 1).

(** Whether the scan revives the old generation's cell at [(x, y)]. *)
Definition spawn_fires (sp : bool) (x y : Z) (s : Scan) : bool :=
  negb (alive_at (self_grid s) x y) &&
  ((draw s =? 1) && (life_chance s <? 1000) && sp).

(** What [update_cell] computes when no index is out of range. *)
Definition cell_step (sp : bool) (x y : Z) (s : Scan) : Scan :=
  let b := conway_rule (alive_at (self_grid s) x y)
             (alive_neighbors (self_grid s) x y) in
  let fired := spawn_fires sp x y s in
  mkScan (if fired then put (self_grid s) x y true else self_grid s)
         (put (new_grid s) x y b)
         (new_alive_count s + Z.b2z b)
         (life_chance s + Z.b2z fired)
         (mkRandom (tape (rnd s)) (S (pos (rnd s)))).

(** The shape [update] keeps during its scan. *)
Definition scan_ok (w h : Z) (s : Scan) : Prop :=
  rect w h (self_grid s) /\ rect w h (new_grid s) /\ 1 <= life_chance s.

(** The positions in the order in which [update] visits them. *)
Definition positions (w h : Z) : list (Z * Z) :=
  flat_map (fun x => map (fun y => (x, y)) (range h)) (range w).

(** [cell_step] over a list of positions, first to last. *)
Definition scan_cells (sp : bool) (ps : list (Z * Z)) (s : Scan) : Scan :=
  fold_left (fun s' p => cell_step sp (fst p) (snd p) s') ps s.

(** Two scan states with the threshold 1 that differ at most in the random
    module, and two outcomes that are such states or the same exception. *)
Definition same_but_rnd (a b : Scan) : Prop :=
  self_grid a = self_grid b /\ new_grid a = new_grid b /\
  new_alive_count a = new_alive_count b /\
  life_chance a = 1 /\ life_chance b = 1.

Definition agree (c1 c2 : result Scan) : Prop :=
  match c1, c2 with
  | Ok a, Ok b => same_but_rnd a b
  | Raise e1, Raise e2 => e1 = e2
  | _, _ => False
  end.

(** Sample inputs. *)
Definition cells_of (rows : list (list bool)) : cells := map (map mkCell) rows.

Definition tape0 : Random := mkRandom (fun _ => 0) 0.
Definition tape1 : Random := mkRandom (fun k => Z.of_nat k + 1) 7.

(** The block still life on a 2 by 2 grid. *)
Definition block : Grid :=
  mkGrid 2 2 8 (cells_of [[true; true]; [true; true]]) 4 false.

(** A 3 by 3 grid with one column alive. *)
Definition blinker : Grid :=
  mkGrid 3 3 8
    (cells_of [[false; true; false]; [false; true; false];
               [false; true; false]]) 3 false.

(** One dead cell, spawning enabled. *)
Definition spawning_1x1 : Grid := with_spawing (Grid_init 1 1 8) true.

(** The left button held with the cursor at pixel [(x, y)]. *)
Definition click_at (x y : Z) : Mouse := mkMouse true (x, y).

Ltac solve_rect := split; [reflexivity | repeat constructor].

(** A single alive cell in the middle of a 5 by 5 grid. *)
Definition lone_cell : Grid :=
  mkGrid 5 5 8
    (cells_of [[false; false; false; false; false];
               [false; false; false; false; false];
               [false; false; true; false; false];
               [false; false; false; false; false];
               [false; false; false; false; false]]) 1 false.

(** ** Grid.draw

    The screen is the list of the rectangles drawn on it, oldest first;
    [pygame.draw.rect] appends one. *)

(** The two colour names [Grid.draw] uses. *)
Inductive Color : Type := white | black.

(** [pygame.Rect(left, top, width, height)] *)
Record Rect : Type := mkRect {
  rect_left : Z;
  rect_top : Z;
  rect_width : Z;
  rect_height : Z
}.

Abbreviation Screen := (list (Color * Rect)).

(** The rectangle [Grid.draw] uses for the cell at [(x, y)]. *)
Definition cell_rect (g : Grid) (x y : Z) : Rect :=
  mkRect (x * cell_size g) (y * cell_size g) (cell_size g) (cell_size g).

(** The body of the inner loop of [Grid.draw]. *)
Definition draw_cell (g : Grid) (x y : Z) (screen : Screen) : result Screen :=
  let* col := getitem (grid g) x in
  let* c := getitem col y in
  Ok (screen ++ [(if is_alive c then white else black, cell_rect g x y)]).

Definition Grid_draw (g : Grid) (screen : Screen) : result Screen :=
  for_each
    (fun x s => for_each (fun y s' => draw_cell g x y s') (range (height g)) s)
    (range (width g)) screen.

(** ** The loop of main

    One iteration reads the events and the mouse of that frame.  The calls
    that only produce output from values already computed ([screen.fill]
    apart, which empties the screen), namely [render_text],
    [pygame.display.flip] and [clock.tick], are left out; the screen each
    frame presents is what [Grid.draw] put on the emptied screen. *)

Record FrameInput : Type := mkFrameInput { events : list Event; mouse : Mouse }.

Record Program : Type := mkProgram {
  controls : Controls;
  running : bool;
  random : Random
}.

(** The body of the event loop: [QUIT] clears [running], and every event,
    [QUIT] too, goes through [process_input]. *)
Definition poll_event (e : Event) (st : bool * Controls) : bool * Controls :=
  (match e with QUIT => false | _ => fst st end, process_input e (snd st)).

Definition poll_events (evs : list Event) (st : bool * Controls)
  : bool * Controls :=
  fold_left (fun st' e => poll_event e st') evs st.

Definition with_world (c : Controls) (g : Grid) : Controls :=
  mkControls g (flip_flop c) (paused c) (simulation_speed c).

(** One iteration of [while running]. *)
Definition frame (cell_size : Z) (inp : FrameInput) (p : Program)
  : result (Program * Screen) :=
  let st := poll_events (events inp) (running p, controls p) in
  let* gw := handle_mouse_input (mouse inp) (game_world (snd st)) cell_size in
  let* upd :=
    if paused (snd st) then Ok (gw, random p) else update (random p) gw in
  let* screen := Grid_draw (fst upd) [] in
  Ok (mkProgram (with_world (snd st) (fst upd)) (fst st) (snd upd), screen).

(** The loop, run on the inputs of finitely many frames: it stops when
    [running] is false, or when the inputs are used up. *)
Fixpoint main_loop (cell_size : Z) (inputs : list FrameInput) (p : Program)
  : result (Program * list Screen) :=
  match inputs with
  | [] => Ok (p, [])
  | inp :: rest =>
      if running p then
        let* fr := frame cell_size inp p in
        let* out := main_loop cell_size rest (fst fr) in
        Ok (fst out, snd fr :: snd out)
      else Ok (p, [])
  end.

Definition main_start (r : Random) : Program := mkProgram main_init true r.

Definition main (inputs : list FrameInput) (r : Random)
  : result (Program * list Screen) :=
  main_loop 8 inputs (main_start r).

(** ** Notions used for the drawing and the input handlers *)

(** What [Grid.draw] paints for the position [p]. *)
Definition paint (g : Grid) (p : Z * Z) : Color * Rect :=
  (if alive_at (grid g) (fst p) (snd p) then white else black,
   cell_rect g (fst p) (snd p)).



(** The positions adjacent to [(x, y)]. *)
Definition adjacent (x y x' y' : Z) : Prop :=
  x - 1 <= x' <= x + 1 /\ y - 1 <= y' <= y + 1 /\ (x', y') <> (x, y).


Definition is_quit (e : Event) : bool :=
  match e with QUIT => true | _ => false end.

Definition is_key (k : Key) (e : Event) : bool :=
  match e, k with
  | KEYDOWN K_SPACE, K_SPACE => true
  | KEYDOWN K_EQUALS, K_EQUALS => true
  | KEYDOWN K_MINUS, K_MINUS => true
  | KEYDOWN K_s, K_s => true
  | _, _ => false
  end.

(** How many times the key [k] goes down in [evs]. *)
Definition presses (k : Key) (evs : list Event) : nat :=
  length (List.filter (is_key k) evs).

Definition without_quit (inp : FrameInput) : FrameInput :=
  mkFrameInput (List.filter (fun e => negb (is_quit e)) (events inp))
    (mouse inp).

Definition set_running (b : bool) (p : Program) : Program :=
  mkProgram (controls p) b (random p).

(** The state a frame of the loop needs and keeps. *)
Definition program_ok (W H : Z) (p : Program) : Prop :=
  wf (game_world (controls p)) /\
  width (game_world (controls p)) = W /\
  height (game_world (controls p)) = H /\
  5 <= simulation_speed (controls p) <= 120.

(** More sample inputs. *)
Definition block_stale : Grid :=
  mkGrid 2 2 8 (cells_of [[true; true]; [true; true]]) 0 true.

Definition small_program (c : Controls) : Program := mkProgram c true tape0.

Definition block_paused : Controls := mkControls block 1 true 10.

Definition idle_mouse : Mouse := mkMouse false (0, 0).

(** ** Indexing lemmas *)

Lemma len_nonneg {A : Type} (l : list A) : 0 <= len l.
Proof. unfold len. lia. Qed.

Lemma getitem_lookup {A : Type} (l : list A) (i : Z) (a : A) :
  0 <= i -> l !! Z.to_nat i = Some a -> getitem l i = Ok a.
Proof.
  intros Hi Hl. unfold getitem, norm_index.
  pose proof (lookup_lt_Some _ _ _ Hl) as Hlt.
  destruct (Z.ltb_spec i 0); [lia|].
  destruct (Z.ltb_spec i 0); [lia|].
  destruct (Z.leb_spec (len l) i) as [Hge|_].
  - unfold len in Hge. lia.
  - cbn [orb]. now rewrite Hl.
Qed.

Lemma getitem_inside {A : Type} (l : list A) (i : Z) :
  0 <= i < len l -> exists a, l !! Z.to_nat i = Some a /\ getitem l i = Ok a.
Proof.
  intros Hi. unfold len in Hi.
  destruct (lookup_lt_is_Some_2 l (Z.to_nat i)) as [a Ha]; [lia|].
  exists a. split; [exact Ha|]. apply getitem_lookup; [lia|exact Ha].
Qed.

Lemma norm_index_nonneg {A : Type} (l : list A) (i : Z) :
  0 <= i -> norm_index l i = i.
Proof. intros Hi. unfold norm_index. destruct (Z.ltb_spec i 0); lia. Qed.

Lemma rect_column (w h : Z) (g : cells) (i : nat) (col : list Cell) :
  rect w h g -> g !! i = Some col -> len col = h.
Proof.
  intros [_ Hall] Hl. rewrite Forall_forall in Hall.
  apply Hall. apply list_elem_of_lookup. eauto.
Qed.

Lemma rect_cell_at (w h : Z) (g : cells) (x y : Z) :
  rect w h g -> 0 <= x < w -> 0 <= y < h ->
  exists col c, g !! Z.to_nat x = Some col /\ col !! Z.to_nat y = Some c /\
                len col = h /\ cell_at g x y = Some c.
Proof.
  intros Hr Hx Hy. pose proof Hr as [Hw _].
  destruct (getitem_inside g x) as (col & Hcol & _); [lia|].
  pose proof (rect_column _ _ _ _ _ Hr Hcol) as Hh.
  destruct (getitem_inside col y) as (c & Hc & _); [lia|].
  exists col, c. repeat split; try assumption.
  unfold cell_at. destruct (Z.ltb_spec x 0); [lia|].
  destruct (Z.ltb_spec y 0); [lia|]. cbn [orb]. rewrite Hcol. exact Hc.
Qed.

Lemma cell_at_outside (w h : Z) (g : cells) (x y : Z) :
  rect w h g -> x < 0 \/ w <= x \/ y < 0 \/ h <= y -> cell_at g x y = None.
Proof.
  intros Hr Ho. unfold cell_at.
  destruct (Z.ltb_spec x 0); [reflexivity|].
  destruct (Z.ltb_spec y 0); [reflexivity|]. cbn [orb].
  destruct (g !! Z.to_nat x) as [col|] eqn:Hcol; [|reflexivity].
  pose proof (rect_column _ _ _ _ _ Hr Hcol) as Hh.
  apply lookup_lt_Some in Hcol. destruct Hr as [Hw _]. unfold len in *.
  apply lookup_ge_None. lia.
Qed.

Lemma alive_at_outside (w h : Z) (g : cells) (x y : Z) :
  rect w h g -> x < 0 \/ w <= x \/ y < 0 \/ h <= y -> alive_at g x y = false.
Proof.
  intros Hr Ho. unfold alive_at. now rewrite (cell_at_outside w h g x y Hr Ho).
Qed.

(** ** The neighbour count *)

Lemma count_alive_at_cons (g : cells) (p : Z * Z) (ps : list (Z * Z)) :
  count_alive_at g (p :: ps) =
  (if alive_at g (fst p) (snd p) then 1 else 0) + count_alive_at g ps.
Proof.
  unfold count_alive_at. simpl.
  destruct (alive_at g (fst p) (snd p)); simpl length; lia.
Qed.

Lemma moore_neighborhood_directions (x y : Z) :
  moore_neighborhood x y = map (shift x y) directions.
Proof.
  unfold moore_neighborhood, directions, shift. simpl.
  repeat match goal with
         | |- context [Z.eqb ?a ?b] =>
             destruct (Z.eqb_spec a b); try lia; simpl
         end.
  reflexivity.
Qed.

Lemma check_neighbors_loop_count (w h : Z) (g : cells) (x y : Z)
  (dirs : list (Z * Z)) (count : Z) :
  rect w h g ->
  check_neighbors_loop g x y dirs count =
  Ok (count + count_alive_at g (map (shift x y) dirs)).
Proof.
  intros Hr. revert count.
  induction dirs as [|[dx dy] rest IH]; intros count.
  - simpl. f_equal. unfold count_alive_at. simpl. lia.
  - cbn [check_neighbors_loop map]. rewrite count_alive_at_cons.
    replace (shift x y (dx, dy)) with (x + dx, y + dy) by reflexivity.
    cbn [fst snd]. pose proof Hr as [Hw _].
    destruct (Z.leb_spec 0 (x + dx)) as [Hx0|Hx0];
      [destruct (Z.ltb_spec (x + dx) (len g)) as [Hx1|Hx1]|]; cbn [andb].
    + destruct (getitem_inside g 0) as (col0 & Hcol0 & ->); [lia|].
      cbn [bind]. pose proof (rect_column _ _ _ _ _ Hr Hcol0) as Hh0.
      destruct (Z.leb_spec 0 (y + dy)) as [Hy0|Hy0];
        [destruct (Z.ltb_spec (y + dy) (len col0)) as [Hy1|Hy1]|]; cbn [andb].
      * destruct (rect_cell_at w h g (x + dx) (y + dy) Hr)
          as (col & c & Hcol & Hc & Hh & Hat); [lia|lia|].
        rewrite (getitem_lookup g (x + dx) col Hx0 Hcol). cbn [bind].
        rewrite (getitem_lookup col (y + dy) c Hy0 Hc). cbn [bind].
        unfold alive_at. rewrite Hat.
        destruct (is_alive c); rewrite IH; f_equal; lia.
      * rewrite (alive_at_outside w h) by (assumption || lia).
        rewrite IH. f_equal.
      * rewrite (alive_at_outside w h) by (assumption || lia).
        rewrite IH. f_equal.
    + rewrite (alive_at_outside w h) by (assumption || lia).
      rewrite IH. f_equal.
    + rewrite (alive_at_outside w h) by (assumption || lia).
      rewrite IH. f_equal.
Qed.

Lemma check_neighbors_rect (w h : Z) (self : Cell) (g : cells) (x y : Z) :
  rect w h g -> check_neighbors self g x y = Ok (alive_neighbors g x y).
Proof.
  intros Hr. unfold check_neighbors.
  rewrite (check_neighbors_loop_count w h g x y directions 0 Hr).
  unfold alive_neighbors. rewrite moore_neighborhood_directions.
  reflexivity.
Qed.

Lemma alive_neighbors_range (g : cells) (x y : Z) :
  0 <= alive_neighbors g x y <= 8.
Proof.
  unfold alive_neighbors. rewrite moore_neighborhood_directions.
  match goal with
  | |- context [List.filter ?f ?l] =>
      pose proof (List.filter_length_le f l) as Hle
  end.
  rewrite length_map in Hle. change (length directions) with 8%nat in Hle.
  lia.
Qed.

Lemma alive_neighbors_corner (w h : Z) (g : cells) (x y : Z) :
  rect w h g -> (x = 0 \/ x = w - 1) -> (y = 0 \/ y = h - 1) ->
  alive_neighbors g x y <= 3.
Proof.
  intros Hr Hx Hy. unfold alive_neighbors.
  rewrite moore_neighborhood_directions.
  fold (count_alive_at g (map (shift x y) directions)).
  unfold directions, shift. cbn [map fst snd].
  repeat rewrite count_alive_at_cons. cbn [fst snd].
  unfold count_alive_at. cbn [List.filter length].
  destruct Hx as [Hx|Hx], Hy as [Hy|Hy];
  repeat match goal with
         | |- context [alive_at g ?a ?b] =>
             first [ rewrite (alive_at_outside w h g a b Hr) by lia
                   | destruct (alive_at g a b) ]
         end; lia.
Qed.

(** ** Writing one cell *)

Lemma set_is_alive_put (w h : Z) (g : cells) (x y : Z) (v : bool) :
  rect w h g -> 0 <= x < w -> 0 <= y < h ->
  set_is_alive g x y v = Ok (put g x y v).
Proof.
  intros Hr Hx Hy.
  destruct (rect_cell_at w h g x y Hr Hx Hy) as (col & c & Hcol & Hc & _ & _).
  unfold set_is_alive, put.
  rewrite (getitem_lookup g x col) by (lia || assumption). cbn [bind].
  rewrite (getitem_lookup col y c) by (lia || assumption). cbn [bind].
  rewrite !norm_index_nonneg by lia. now rewrite Hcol.
Qed.

Lemma put_rect (w h : Z) (g : cells) (x y : Z) (v : bool) :
  rect w h g -> rect w h (put g x y v).
Proof.
  intros Hr. unfold put.
  destruct (g !! Z.to_nat x) as [col|] eqn:Hcol; [|exact Hr].
  pose proof (rect_column _ _ _ _ _ Hr Hcol) as Hh.
  destruct Hr as [Hw Hall]. split.
  - unfold len in *. now rewrite length_insert.
  - apply Forall_insert; [exact Hall|].
    unfold len in *. now rewrite length_insert.
Qed.

Lemma cell_at_put_eq (w h : Z) (g : cells) (x y : Z) (v : bool) :
  rect w h g -> 0 <= x < w -> 0 <= y < h ->
  cell_at (put g x y v) x y = Some (mkCell v).
Proof.
  intros Hr Hx Hy.
  destruct (rect_cell_at w h g x y Hr Hx Hy) as (col & c & Hcol & Hc & _ & _).
  unfold cell_at, put. rewrite Hcol.
  destruct (Z.ltb_spec x 0); [lia|]. destruct (Z.ltb_spec y 0); [lia|].
  cbn [orb].
  rewrite list_lookup_insert_eq by (eapply lookup_lt_Some; eassumption).
  apply list_lookup_insert_eq. eapply lookup_lt_Some; eassumption.
Qed.

Lemma cell_at_put_ne (g : cells) (x y x' y' : Z) (v : bool) :
  0 <= x -> 0 <= y -> (x', y') <> (x, y) ->
  cell_at (put g x y v) x' y' = cell_at g x' y'.
Proof.
  intros Hx Hy Hne. unfold cell_at, put.
  destruct (Z.ltb_spec x' 0); [reflexivity|].
  destruct (Z.ltb_spec y' 0); [reflexivity|]. cbn [orb].
  destruct (g !! Z.to_nat x) as [col|] eqn:Hcol; [|reflexivity].
  destruct (decide (Z.to_nat x = Z.to_nat x')) as [Heq|Hd].
  - rewrite <- Heq. rewrite Hcol.
    rewrite list_lookup_insert_eq by (eapply lookup_lt_Some; eassumption).
    apply list_lookup_insert_ne. intros Hy'. apply Hne. f_equal; lia.
  - now rewrite list_lookup_insert_ne.
Qed.

Lemma alive_in_column_insert (col : list Cell) (j : nat) (c c' : Cell) :
  col !! j = Some c ->
  alive_in_column (<[j := c']> col) =
  alive_in_column col - Z.b2z (is_alive c) + Z.b2z (is_alive c').
Proof.
  revert j. induction col as [|a col IH]; intros [|j] Hl; try discriminate.
  - injection Hl as ->. cbn.
    destruct (is_alive c), (is_alive c'); cbn; lia.
  - cbn in Hl. cbn [alive_in_column]. 
    change (<[S j := c']> (a :: col)) with (a :: <[j := c']> col).
    cbn [alive_in_column]. rewrite (IH j Hl). lia.
Qed.

Lemma alive_in_cells_insert (g : cells) (i : nat) (col col' : list Cell) :
  g !! i = Some col ->
  alive_in_cells (<[i := col']> g) =
  alive_in_cells g - alive_in_column col + alive_in_column col'.
Proof.
  revert i. induction g as [|a g IH]; intros [|i] Hl; try discriminate.
  - injection Hl as ->. cbn. lia.
  - cbn in Hl.
    change (<[S i := col']> (a :: g)) with (a :: <[i := col']> g).
    cbn [alive_in_cells]. rewrite (IH i Hl). lia.
Qed.

Lemma alive_in_cells_put (g : cells) (x y : Z) (c : Cell) (v : bool) :
  cell_at g x y = Some c ->
  alive_in_cells (put g x y v) =
  alive_in_cells g - Z.b2z (is_alive c) + Z.b2z v.
Proof.
  unfold cell_at, put.
  destruct ((x <? 0) || (y <? 0)); [discriminate|].
  destruct (g !! Z.to_nat x) as [col|] eqn:Hcol; [|discriminate].
  intros Hc. rewrite (alive_in_cells_insert g _ col _ Hcol).
  rewrite (alive_in_column_insert col _ c _ Hc). cbn [is_alive]. lia.
Qed.

(** ** One cell of the scan *)

Lemma getitem_cell_at (g : cells) (x y : Z) (c : Cell) :
  cell_at g x y = Some c ->
  exists col, getitem g x = Ok col /\ getitem col y = Ok c.
Proof.
  unfold cell_at.
  destruct (Z.ltb_spec x 0); [discriminate|].
  destruct (Z.ltb_spec y 0); [discriminate|]. cbn [orb].
  destruct (g !! Z.to_nat x) as [col|] eqn:Hcol; [|discriminate].
  intros Hc. exists col. split; apply getitem_lookup; assumption.
Qed.

Lemma update_cell_step (w h : Z) (sp : bool) (x y : Z) (s : Scan) :
  scan_ok w h s -> 0 <= x < w -> 0 <= y < h ->
  update_cell sp x y s = Ok (cell_step sp x y s).
Proof.
  intros (Hold & Hnew & Hlc) Hx Hy.
  destruct (rect_cell_at w h _ x y Hold Hx Hy)
    as (col & c & Hcol & Hc & _ & Hat).
  unfold update_cell, randint.
  destruct (Z.ltb_spec (life_chance s) 1); [lia|]. cbn [bind].
  rewrite (getitem_lookup _ x col) by (lia || assumption). cbn [bind].
  rewrite (getitem_lookup col y c) by (lia || assumption). cbn [bind].
  rewrite (check_neighbors_rect w h c _ x y Hold). cbn [bind].
  unfold cell_step, spawn_fires, alive_at. rewrite Hat.
  fold (draw s). set (n := alive_neighbors (self_grid s) x y).
  assert (Hread : forall (b : bool) (og : cells) (lc : Z) (r : Random),
    (let* s1 := Ok (mkScan og (put (new_grid s) x y b)
                      (new_alive_count s) lc r) in
     let* ncol := getitem (new_grid s1) x in
     let* nc := getitem ncol y in
     if is_alive nc then
       Ok (mkScan (self_grid s1) (new_grid s1) (new_alive_count s1 + 1)
             (life_chance s1) (rnd s1))
     else Ok s1) =
    Ok (mkScan og (put (new_grid s) x y b) (new_alive_count s + Z.b2z b)
          lc r)).
  { intros b og lc r. cbn [bind new_grid].
    destruct (getitem_cell_at _ x y _
                (cell_at_put_eq w h (new_grid s) x y b Hnew Hx Hy))
      as (ncol & -> & Hnc).
    cbn [bind]. rewrite Hnc. cbn [bind is_alive].
    destruct b; cbn; [reflexivity|]. now rewrite Z.add_0_r. }
  destruct (is_alive c); cbn [negb andb conway_rule].
  - rewrite (set_is_alive_put w h) by assumption.
    etransitivity; [apply (Hread (in_2_3 n))|].
    cbn [Z.b2z]. now rewrite (Z.add_0_r (life_chance s)).
  - rewrite (set_is_alive_put w h) by assumption.
    destruct ((draw s =? 1) && (life_chance s <? 1000) && sp).
    + rewrite (set_is_alive_put w h) by assumption.
      etransitivity; [apply (Hread (n =? 3))|]. reflexivity.
    + etransitivity; [apply (Hread (n =? 3))|].
      cbn [Z.b2z]. now rewrite (Z.add_0_r (life_chance s)).
Qed.

Lemma cell_step_ok (w h : Z) (sp : bool) (x y : Z) (s : Scan) :
  scan_ok w h s -> scan_ok w h (cell_step sp x y s).
Proof.
  intros (Hold & Hnew & Hlc). unfold scan_ok, cell_step.
  cbn [self_grid new_grid life_chance]. split; [|split].
  - destruct (spawn_fires sp x y s); [apply put_rect|]; assumption.
  - apply put_rect; assumption.
  - destruct (spawn_fires sp x y s); cbn; lia.
Qed.

(** ** The two loops as one pass over the positions *)

Lemma scan_cells_cons (sp : bool) (p : Z * Z) (ps : list (Z * Z)) (s : Scan) :
  scan_cells sp (p :: ps) s = scan_cells sp ps (cell_step sp (fst p) (snd p) s).
Proof. reflexivity. Qed.

Lemma scan_cells_app (sp : bool) (ps qs : list (Z * Z)) (s : Scan) :
  scan_cells sp (ps ++ qs) s = scan_cells sp qs (scan_cells sp ps s).
Proof. unfold scan_cells. apply fold_left_app. Qed.

Lemma scan_cells_ok (w h : Z) (sp : bool) (ps : list (Z * Z)) (s : Scan) :
  scan_ok w h s -> scan_ok w h (scan_cells sp ps s).
Proof.
  revert s. induction ps as [|p ps IH]; intros s Hs; [exact Hs|].
  rewrite scan_cells_cons. apply IH. apply cell_step_ok. exact Hs.
Qed.

Lemma inner_loop_scan (w h : Z) (sp : bool) (x : Z) (ys : list Z) (s : Scan) :
  scan_ok w h s -> 0 <= x < w -> (forall y, In y ys -> 0 <= y < h) ->
  for_each (fun y s' => update_cell sp x y s') ys s =
  Ok (scan_cells sp (map (fun y => (x, y)) ys) s).
Proof.
  intros Hs Hx. revert s Hs.
  induction ys as [|y ys IH]; intros s Hs Hys; [reflexivity|].
  cbn [for_each map].
  rewrite (update_cell_step w h) by (auto using in_eq). cbn [bind].
  rewrite IH; [reflexivity| |].
  - apply cell_step_ok. exact Hs.
  - intros y' Hy'. apply Hys. now right.
Qed.

Lemma outer_loop_scan (w h : Z) (sp : bool) (xs ys : list Z) (s : Scan) :
  scan_ok w h s ->
  (forall x, In x xs -> 0 <= x < w) -> (forall y, In y ys -> 0 <= y < h) ->
  for_each (fun x s' => for_each (fun y s'' => update_cell sp x y s'') ys s')
    xs s =
  Ok (scan_cells sp (flat_map (fun x => map (fun y => (x, y)) ys) xs) s).
Proof.
  intros Hs Hxs Hys. revert s Hs.
  induction xs as [|x xs IH]; intros s Hs; [reflexivity|].
  cbn [for_each flat_map].
  rewrite (inner_loop_scan w h) by (auto using in_eq). cbn [bind].
  rewrite scan_cells_app. apply IH.
  - intros x' Hx'. apply Hxs. now right.
  - apply scan_cells_ok. exact Hs.
Qed.

Lemma in_range (n x : Z) : In x (range n) <-> 0 <= x < n.
Proof.
  unfold range. rewrite <- list_elem_of_In, elem_of_seqZ. lia.
Qed.

Lemma in_positions (w h x y : Z) :
  In (x, y) (positions w h) <-> 0 <= x < w /\ 0 <= y < h.
Proof.
  unfold positions. rewrite in_flat_map. split.
  - intros (x' & Hx' & Hin). apply in_map_iff in Hin as (y' & Heq & Hy').
    injection Heq as -> ->. rewrite in_range in Hx', Hy'. auto.
  - intros [Hx Hy]. exists x. rewrite in_range. split; [exact Hx|].
    apply in_map_iff. exists y. rewrite in_range. auto.
Qed.

Lemma NoDup_positions (w h : Z) : NoDup (positions w h).
Proof.
  unfold positions.
  assert (Hys : NoDup (range h)) by apply NoDup_seqZ.
  assert (Hxs : NoDup (range w)) by apply NoDup_seqZ.
  induction Hxs as [|x xs Hx Hxs IH]; cbn [flat_map]; [constructor|].
  apply NoDup_app. split; [|split].
  - clear -Hys. induction Hys as [|y ys Hy Hys IH]; cbn [map]; constructor.
    + rewrite list_elem_of_In, in_map_iff. intros (y' & Heq & Hy').
      injection Heq as ->. apply Hy. now apply list_elem_of_In.
    + exact IH.
  - intros [x' y']. rewrite !list_elem_of_In, in_map_iff, in_flat_map.
    intros (y0 & Heq & _) (x0 & Hx0 & Hin). injection Heq as <- <-.
    apply in_map_iff in Hin as (y1 & Heq & _). injection Heq as -> ->.
    apply Hx. now apply list_elem_of_In.
  - exact IH.
Qed.

Lemma fresh_cells_dead (w h : Z) (col : list Cell) (c : Cell) :
  In col (fresh_cells w h) -> In c col -> c = mkCell false.
Proof.
  unfold fresh_cells. rewrite in_map_iff. intros (x & <- & _).
  rewrite in_map_iff. now intros (y & <- & _).
Qed.

Lemma fresh_cells_rect (w h : Z) :
  rect (Z.max 0 w) (Z.max 0 h) (fresh_cells w h).
Proof.
  unfold rect, fresh_cells, len, range. split.
  - rewrite length_map, length_seqZ. lia.
  - apply Forall_forall. intros col Hcol.
    apply list_elem_of_In, in_map_iff in Hcol as (x & <- & _).
    rewrite length_map, length_seqZ. lia.
Qed.

Lemma update_enter_ok (r : Random) (g : Grid) :
  wf g -> scan_ok (Z.max 0 (width g)) (Z.max 0 (height g)) (update_enter r g).
Proof.
  intros Hwf. unfold scan_ok, update_enter. cbn.
  split; [exact Hwf|]. split; [apply fresh_cells_rect|lia].
Qed.

Lemma update_scan_cells (r : Random) (g : Grid) :
  wf g ->
  update_scan r g =
  Ok (scan_cells (spawing g) (positions (width g) (height g))
        (update_enter r g)).
Proof.
  intros Hwf. unfold update_scan, positions.
  apply (outer_loop_scan (Z.max 0 (width g)) (Z.max 0 (height g))).
  - apply update_enter_ok. exact Hwf.
  - intros x Hx. apply in_range in Hx. lia.
  - intros y Hy. apply in_range in Hy. lia.
Qed.

(** ** What the scan does to each buffer *)

Lemma alive_at_cell (g : cells) (x y : Z) (c : Cell) :
  cell_at g x y = Some c -> alive_at g x y = is_alive c.
Proof. intros H. unfold alive_at. now rewrite H. Qed.

Lemma scan_new_grid_other (sp : bool) (ps : list (Z * Z)) (s : Scan)
  (x y : Z) :
  (forall p, In p ps -> 0 <= fst p /\ 0 <= snd p) -> ~ In (x, y) ps ->
  cell_at (new_grid (scan_cells sp ps s)) x y = cell_at (new_grid s) x y.
Proof.
  revert s. induction ps as [|[px py] ps IH]; intros s Hps Hnot;
    [reflexivity|].
  rewrite scan_cells_cons. cbn [fst snd].
  rewrite IH.
  - cbn [cell_step new_grid].
    destruct (Hps (px, py) (in_eq _ _)) as [Hx Hy]. cbn in Hx, Hy.
    apply cell_at_put_ne; try assumption.
    intros Heq. apply Hnot. left. now symmetry.
  - intros p Hp. apply Hps. now right.
  - intros Hin. apply Hnot. now right.
Qed.

(** The new buffer is counted exactly, whether or not cells spawn. *)
Lemma scan_counts_new_grid (w h : Z) (sp : bool) (ps : list (Z * Z))
  (s : Scan) :
  scan_ok w h s -> NoDup ps ->
  (forall p, In p ps -> 0 <= fst p < w /\ 0 <= snd p < h) ->
  (forall p, In p ps -> alive_at (new_grid s) (fst p) (snd p) = false) ->
  new_alive_count s = alive_in_cells (new_grid s) ->
  new_alive_count (scan_cells sp ps s) =
  alive_in_cells (new_grid (scan_cells sp ps s)).
Proof.
  revert s. induction ps as [|[x y] ps IH];
    intros s Hs Hnd Hin Hdead Hcount; [exact Hcount|].
  rewrite scan_cells_cons. cbn [fst snd].
  apply NoDup_cons in Hnd as [Hnotin Hnd].
  destruct (Hin (x, y) (in_eq _ _)) as [Hx Hy]. cbn in Hx, Hy.
  pose proof Hs as (_ & Hnew & _).
  destruct (rect_cell_at w h _ x y Hnew Hx Hy) as (_ & c & _ & _ & _ & Hat).
  pose proof (Hdead (x, y) (in_eq _ _)) as Hc. cbn in Hc.
  rewrite (alive_at_cell _ _ _ _ Hat) in Hc.
  apply IH.
  - apply cell_step_ok. exact Hs.
  - exact Hnd.
  - intros p Hp. apply Hin. now right.
  - intros [px py] Hp. cbn [cell_step new_grid fst snd]. unfold alive_at.
    rewrite cell_at_put_ne.
    + apply (Hdead (px, py)). now right.
    + lia.
    + lia.
    + intros Heq. apply Hnotin. apply list_elem_of_In. now rewrite <- Heq.
  - cbn [cell_step new_grid new_alive_count].
    rewrite (alive_in_cells_put _ x y c _ Hat), Hc, Hcount. cbn. lia.
Qed.

(** With spawning off neither the old buffer nor the threshold moves. *)
Lemma cell_step_no_spawn_keeps (x y : Z) (s : Scan) :
  self_grid (cell_step false x y s) = self_grid s /\
  life_chance (cell_step false x y s) = life_chance s.
Proof.
  unfold cell_step, spawn_fires. rewrite !andb_false_r.
  cbn. split; [reflexivity|lia].
Qed.

Lemma scan_no_spawn_keeps (ps : list (Z * Z)) (s : Scan) :
  self_grid (scan_cells false ps s) = self_grid s /\
  life_chance (scan_cells false ps s) = life_chance s.
Proof.
  revert s. induction ps as [|[x y] ps IH]; intros s; [split; reflexivity|].
  rewrite scan_cells_cons. cbn [fst snd].
  destruct (IH (cell_step false x y s)) as [-> ->].
  apply cell_step_no_spawn_keeps.
Qed.

Lemma scan_no_spawn_rule (w h : Z) (ps : list (Z * Z)) (s : Scan) (x y : Z) :
  scan_ok w h s -> NoDup ps ->
  (forall p, In p ps -> 0 <= fst p < w /\ 0 <= snd p < h) ->
  In (x, y) ps ->
  cell_at (new_grid (scan_cells false ps s)) x y =
  Some (mkCell (conway_rule (alive_at (self_grid s) x y)
                  (alive_neighbors (self_grid s) x y))).
Proof.
  revert s. induction ps as [|[px py] ps IH]; intros s Hs Hnd Hin Hxy;
    [destruct Hxy|].
  rewrite scan_cells_cons. cbn [fst snd].
  apply NoDup_cons in Hnd as [Hnotin Hnd].
  destruct (Hin (px, py) (in_eq _ _)) as [Hpx Hpy]. cbn in Hpx, Hpy.
  pose proof Hs as (_ & Hnew & _).
  destruct Hxy as [Heq|Hxy].
  - injection Heq as -> ->. rewrite scan_new_grid_other.
    + cbn [cell_step new_grid]. now apply (cell_at_put_eq w h).
    + intros p Hp. destruct (Hin p (in_cons _ _ _ Hp)). lia.
    + intros Hp. apply Hnotin. now apply list_elem_of_In.
  - rewrite IH; try assumption.
    + destruct (cell_step_no_spawn_keeps px py s) as [Hsame _].
      now rewrite Hsame.
    + apply cell_step_ok. exact Hs.
    + intros p Hp. apply Hin. now right.
Qed.

(** The threshold moves with the cells revived in the old buffer. *)
Lemma cell_step_threshold (w h : Z) (sp : bool) (x y : Z) (s : Scan) :
  scan_ok w h s -> 0 <= x < w -> 0 <= y < h ->
  life_chance (cell_step sp x y s) - alive_in_cells (self_grid (cell_step sp x y s)) =
  life_chance s - alive_in_cells (self_grid s) /\
  life_chance s <= life_chance (cell_step sp x y s) /\
  (life_chance s <= 1000 -> life_chance (cell_step sp x y s) <= 1000).
Proof.
  intros (Hold & _ & Hlc) Hx Hy.
  destruct (rect_cell_at w h _ x y Hold Hx Hy) as (_ & c & _ & _ & _ & Hat).
  unfold cell_step. cbn [life_chance self_grid].
  destruct (spawn_fires sp x y s) eqn:Hf; cbn [Z.b2z]; [|lia].
  unfold spawn_fires in Hf. rewrite (alive_at_cell _ _ _ _ Hat) in Hf.
  apply andb_prop in Hf as [Hdead Hf]. apply andb_prop in Hf as [Hf _].
  apply andb_prop in Hf as [_ Hlt]. apply Z.ltb_lt in Hlt.
  rewrite (alive_in_cells_put _ x y c true Hat).
  destruct (is_alive c); [discriminate|]. cbn. lia.
Qed.

Lemma scan_threshold (w h : Z) (sp : bool) (ps : list (Z * Z)) (s : Scan) :
  scan_ok w h s ->
  (forall p, In p ps -> 0 <= fst p < w /\ 0 <= snd p < h) ->
  life_chance (scan_cells sp ps s) - alive_in_cells (self_grid (scan_cells sp ps s)) =
  life_chance s - alive_in_cells (self_grid s) /\
  life_chance s <= life_chance (scan_cells sp ps s) /\
  (life_chance s <= 1000 -> life_chance (scan_cells sp ps s) <= 1000).
Proof.
  revert s. induction ps as [|[x y] ps IH]; intros s Hs Hin.
  - cbn. lia.
  - rewrite scan_cells_cons. cbn [fst snd].
    destruct (Hin (x, y) (in_eq _ _)) as [Hx Hy]. cbn in Hx, Hy.
    destruct (cell_step_threshold w h sp x y s Hs Hx Hy) as (H1 & H2 & H3).
    destruct (IH (cell_step sp x y s)) as (I1 & I2 & I3).
    + apply cell_step_ok. exact Hs.
    + intros p Hp. apply Hin. now right.
    + lia.
Qed.

(** ** Well-formed grids *)

Lemma Grid_init_wf (w h cs : Z) : wf (Grid_init w h cs).
Proof. apply fresh_cells_rect. Qed.

Lemma update_ok (r : Random) (g : Grid) :
  wf g ->
  update r g =
  Ok (update_leave g (scan_cells (spawing g) (positions (width g) (height g))
                        (update_enter r g)),
      rnd (scan_cells (spawing g) (positions (width g) (height g))
             (update_enter r g))).
Proof.
  intros Hwf. unfold update. now rewrite (update_scan_cells r g Hwf).
Qed.

Lemma update_leave_wf (g : Grid) (s : Scan) :
  scan_ok (Z.max 0 (width g)) (Z.max 0 (height g)) s -> wf (update_leave g s).
Proof. intros (_ & Hnew & _). exact Hnew. Qed.

Lemma handle_mouse_input_wf (m : Mouse) (g : Grid) (cs : Z) :
  wf g -> cs <> 0 ->
  exists g', handle_mouse_input m g cs = Ok g' /\ wf g'.
Proof.
  intros Hwf Hcs. unfold handle_mouse_input.
  destruct (pressed m); [|eauto]. destruct (mouse_pos m) as [x y].
  unfold floordiv. destruct (Z.eqb_spec cs 0); [contradiction|]. cbn [bind].
  destruct ((0 <=? x / cs) && (x / cs <? width g) &&
            ((0 <=? y / cs) && (y / cs <? height g))) eqn:Hb; [|eauto].
  apply andb_prop in Hb as [Hx Hy].
  apply andb_prop in Hx as [Hx0 Hx1]. apply andb_prop in Hy as [Hy0 Hy1].
  apply Z.leb_le in Hx0, Hy0. apply Z.ltb_lt in Hx1, Hy1.
  destruct (rect_cell_at _ _ _ (x / cs) (y / cs) Hwf)
    as (col & c & Hcol & Hc & _ & _); [lia|lia|].
  rewrite (getitem_lookup _ _ col) by assumption. cbn [bind].
  rewrite (getitem_lookup col _ c) by assumption. cbn [bind].
  rewrite (set_is_alive_put _ _ _ _ _ _ Hwf) by lia. cbn [bind].
  eexists. split; [reflexivity|]. apply put_rect. exact Hwf.
Qed.

Lemma fresh_cells_alive_at (w h x y : Z) :
  alive_at (fresh_cells w h) x y = false.
Proof.
  unfold alive_at, cell_at.
  destruct ((x <? 0) || (y <? 0)); [reflexivity|].
  destruct (fresh_cells w h !! Z.to_nat x) as [col|] eqn:Hcol; [|reflexivity].
  destruct (col !! Z.to_nat y) as [c|] eqn:Hc; [|reflexivity].
  rewrite (fresh_cells_dead w h col c); [reflexivity| |].
  - apply list_elem_of_In, list_elem_of_lookup. eauto.
  - apply list_elem_of_In, list_elem_of_lookup. eauto.
Qed.

Lemma fresh_cells_none_alive (w h : Z) : alive_in_cells (fresh_cells w h) = 0.
Proof.
  assert (Hcol : forall col : list Cell,
             (forall c, In c col -> c = mkCell false) ->
             alive_in_column col = 0).
  { induction col as [|c col IH]; intros Hall; [reflexivity|].
    cbn [alive_in_column]. rewrite (Hall c (in_eq _ _)). cbn.
    apply IH. intros c' Hc'. apply Hall. now right. }
  pose proof (fresh_cells_dead w h) as Hdead.
  induction (fresh_cells w h) as [|col g IH]; [reflexivity|].
  cbn [alive_in_cells]. rewrite Hcol, IH; [reflexivity| |].
  - intros col' c Hcol' Hc. apply (Hdead col'); [now right|exact Hc].
  - intros c Hc. apply (Hdead col); [now left|exact Hc].
Qed.

Lemma positions_empty (w h : Z) : w <= 0 \/ h <= 0 -> positions w h = [].
Proof.
  intros Hz. destruct (positions w h) as [|[x y] ps] eqn:Hps; [reflexivity|].
  assert (Hin : In (x, y) (positions w h)) by (rewrite Hps; apply in_eq).
  apply in_positions in Hin. lia.
Qed.

Lemma range_empty (n : Z) : n <= 0 -> range n = [].
Proof.
  intros Hn. unfold range. apply length_zero_iff_nil.
  rewrite length_seqZ. lia.
Qed.

Lemma empty_columns (cs : cells) (xs : list Z) :
  length cs = length xs -> Forall (fun col => len col = 0) cs ->
  cs = map (fun _ => []) xs.
Proof.
  revert xs. induction cs as [|col cs IH]; intros [|x xs] Hlen Hall;
    try discriminate; [reflexivity|].
  apply Forall_cons in Hall as [Hcol Hall]. cbn [map]. f_equal.
  - apply length_zero_iff_nil. unfold len in Hcol. lia.
  - apply IH; [cbn [length] in Hlen; lia|exact Hall].
Qed.

Lemma empty_grid_is_fresh (g : Grid) :
  wf g -> width g <= 0 \/ height g <= 0 ->
  grid g = fresh_cells (width g) (height g).
Proof.
  intros [Hw Hall] Hz. unfold fresh_cells.
  assert (Hlen : length (grid g) = length (range (width g))).
  { unfold range. rewrite length_seqZ. unfold len in Hw. lia. }
  destruct (Z.le_gt_cases (width g) 0) as [Hw0|Hw0].
  - rewrite (range_empty (width g)) in * by assumption.
    cbn in Hlen. apply length_zero_iff_nil in Hlen. now rewrite Hlen.
  - assert (Hh0 : height g <= 0) by lia.
    rewrite (range_empty (height g)) by assumption. cbn [map].
    apply empty_columns; [exact Hlen|].
    eapply Forall_impl; [exact Hall|]. cbn. intros col Hcol. lia.
Qed.

(** ** The neighbour count and the generation step *)

(** C2.  On a [w] by [h] grid and for a position inside it,
    [check_neighbors] returns the number of alive cells among the eight
    Moore neighbours, a position outside the grid counting as dead (no
    wrap-around).  The result lies between 0 and 8, is at most 3 at a
    corner, and is a function of the grid and the position alone: it does
    not depend on the cell the method is called on. *)
Theorem check_neighbors_counts_moore_neighbors
  (w h : Z) (self : Cell) (g : cells) (x y : Z) :
  rect w h g -> inside w h x y ->
  check_neighbors self g x y = Ok (alive_neighbors g x y) /\
  0 <= alive_neighbors g x y <= 8 /\
  (corner w h x y -> alive_neighbors g x y <= 3).
Proof.
  intros Hr _. split; [|split].
  - apply (check_neighbors_rect w h). exact Hr.
  - apply alive_neighbors_range.
  - intros [Hx Hy]. now apply (alive_neighbors_corner w h).
Qed.

(** C1.  With spawning disabled, [update] succeeds on a well-formed grid
    and applies Conway's rule to every cell against the old generation: a
    live cell is alive afterwards exactly when it had 2 or 3 alive
    neighbours, a dead cell exactly when it had 3. *)
Theorem update_follows_conway_rule (r : Random) (g : Grid) :
  wf g -> spawing g = false ->
  exists g' r', update r g = Ok (g', r') /\
    forall x y, inside (width g) (height g) x y ->
      exists c c',
        cell_at (grid g) x y = Some c /\ cell_at (grid g') x y = Some c' /\
        (is_alive c = true ->
         (is_alive c' = true <->
          alive_neighbors (grid g) x y = 2 \/ alive_neighbors (grid g) x y = 3))
        /\
        (is_alive c = false ->
         (is_alive c' = true <-> alive_neighbors (grid g) x y = 3)).
Proof.
  intros Hwf Hsp. rewrite (update_ok r g Hwf).
  eexists. eexists. split; [reflexivity|].
  intros x y [Hx Hy]. cbn [update_leave grid]. rewrite Hsp.
  destruct (rect_cell_at _ _ _ x y Hwf) as (_ & c & _ & _ & _ & Hat);
    [lia|lia|].
  exists c. eexists. split; [exact Hat|]. split.
  - apply (scan_no_spawn_rule (Z.max 0 (width g)) (Z.max 0 (height g))).
    + apply update_enter_ok. exact Hwf.
    + apply NoDup_positions.
    + intros [px py] Hp. apply in_positions in Hp. cbn. lia.
    + apply in_positions. lia.
  - cbn [update_enter self_grid is_alive].
    rewrite (alive_at_cell _ _ _ _ Hat). unfold conway_rule.
    split; intros ->.
    + now rewrite orb_true_iff, !Z.eqb_eq.
    + now rewrite Z.eqb_eq.
Qed.

(** C3.  Whatever the spawning flag, [update] succeeds on a well-formed
    grid and leaves in [alive_count] the exact number of alive cells of the
    grid it installs. *)
Theorem update_alive_count_exact (r : Random) (g : Grid) :
  wf g ->
  exists g' r', update r g = Ok (g', r') /\
    alive_count g' = alive_in_cells (grid g').
Proof.
  intros Hwf. rewrite (update_ok r g Hwf).
  eexists. eexists. split; [reflexivity|].
  cbn [update_leave grid alive_count].
  apply (scan_counts_new_grid (Z.max 0 (width g)) (Z.max 0 (height g))).
  - apply update_enter_ok. exact Hwf.
  - apply NoDup_positions.
  - intros [px py] Hp. apply in_positions in Hp. cbn. lia.
  - intros p _. apply fresh_cells_alive_at.
  - cbn [update_enter new_grid new_alive_count].
    now rewrite fresh_cells_none_alive.
Qed.

(** C9.  [update] raises nothing on a well-formed grid and returns a
    well-formed grid of the same dimensions.  When the width or the height
    is zero (or negative) it draws no random number and changes neither the
    grid, which has no cell, nor [alive_count] if that was 0. *)
Theorem update_cannot_fail (r : Random) (g : Grid) :
  wf g ->
  (exists g' r', update r g = Ok (g', r') /\ wf g' /\
     width g' = width g /\ height g' = height g) /\
  (width g <= 0 \/ height g <= 0 ->
   exists g', update r g = Ok (g', r) /\
     grid g' = grid g /\ alive_in_cells (grid g') = 0 /\ alive_count g' = 0 /\
     (alive_count g = 0 -> g' = g)).
Proof.
  intros Hwf. rewrite (update_ok r g Hwf). split.
  - eexists. eexists. split; [reflexivity|]. split; [|split; reflexivity].
    apply update_leave_wf. apply scan_cells_ok. apply update_enter_ok.
    exact Hwf.
  - intros Hz. rewrite (positions_empty _ _ Hz).
    cbn [scan_cells fold_left update_enter rnd].
    eexists. split; [reflexivity|].
    unfold update_leave. cbn [grid alive_count new_grid new_alive_count].
    unfold update_enter. cbn [new_grid new_alive_count].
    split; [symmetry; now apply empty_grid_is_fresh|].
    split; [apply fresh_cells_none_alive|]. split; [reflexivity|].
    intros H0. rewrite <- (empty_grid_is_fresh g Hwf Hz), <- H0.
    now destruct g.
Qed.

(** ** Runs that differ only in their random draws *)

Lemma update_cell_agree (x y : Z) (a b : Scan) :
  same_but_rnd a b ->
  agree (update_cell false x y a) (update_cell false x y b).
Proof.
  destruct a as [og ng n lc ra], b as [og' ng' n' lc' rb].
  intros (H1 & H2 & H3 & H4 & H5). cbn in H1, H2, H3, H4, H5. subst.
  unfold update_cell, randint.
  cbn [life_chance rnd self_grid new_grid new_alive_count].
  change (1 <? 1) with false. cbn [bind].
  destruct (getitem og' x) as [col|e]; cbn [bind agree]; [|reflexivity].
  destruct (getitem col y) as [c|e]; cbn [bind agree]; [|reflexivity].
  destruct (check_neighbors c og' x y) as [nb|e]; cbn [bind agree];
    [|reflexivity].
  rewrite !andb_false_r.
  destruct (is_alive c);
    (match goal with
     | |- context [set_is_alive ng' x y ?v] =>
         destruct (set_is_alive ng' x y v) as [ng1|e]
     end; cbn [bind agree new_grid]; [|reflexivity]);
    (destruct (getitem ng1 x) as [ncol|e]; cbn [bind agree]; [|reflexivity]);
    (destruct (getitem ncol y) as [nc|e]; cbn [bind agree]; [|reflexivity]);
    destruct (is_alive nc); cbn; unfold same_but_rnd; cbn; auto.
Qed.

Lemma for_each_agree {I : Type} (f : I -> Scan -> result Scan) (l : list I) :
  (forall i a b, same_but_rnd a b -> agree (f i a) (f i b)) ->
  forall a b, same_but_rnd a b -> agree (for_each f l a) (for_each f l b).
Proof.
  intros Hf. induction l as [|i l IH]; intros a b Hab; [exact Hab|].
  cbn [for_each]. specialize (Hf i a b Hab).
  destruct (f i a), (f i b); cbn [bind agree] in *;
    try contradiction; auto.
Qed.

(** C10.  With [spawing] false the grid and the [alive_count] that
    [update] produces (or the exception it raises) are the same for every
    two states of the random module. *)
Theorem update_without_spawning_ignores_draws (r1 r2 : Random) (g : Grid) :
  spawing g = false ->
  result_map fst (update r1 g) = result_map fst (update r2 g).
Proof.
  intros Hsp. unfold update, update_scan. rewrite Hsp.
  assert (Hag : agree
    (for_each (fun x s => for_each (fun y s' => update_cell false x y s')
                            (range (height g)) s)
       (range (width g)) (update_enter r1 g))
    (for_each (fun x s => for_each (fun y s' => update_cell false x y s')
                            (range (height g)) s)
       (range (width g)) (update_enter r2 g))).
  { apply for_each_agree.
    - intros x a b Hab. apply for_each_agree; [|exact Hab].
      intros y a' b' Hab'. now apply update_cell_agree.
    - unfold same_but_rnd, update_enter. cbn. auto. }
  destruct (for_each _ _ (update_enter r1 g)) as [a|e1],
           (for_each _ _ (update_enter r2 g)) as [b|e2];
    cbn [agree bind result_map fst] in *; try contradiction.
  - destruct Hag as (_ & Hn & Hc & _). unfold update_leave.
    now rewrite Hn, Hc.
  - now subst.
Qed.

(** ** The spawn threshold *)

Lemma cell_step_spawn (w h : Z) (sp : bool) (x y : Z) (s : Scan) :
  scan_ok w h s -> 0 <= x < w -> 0 <= y < h ->
  if spawn_fires sp x y s then
    alive_at (self_grid (cell_step sp x y s)) x y = true /\
    life_chance (cell_step sp x y s) = life_chance s + 1
  else
    self_grid (cell_step sp x y s) = self_grid s /\
    life_chance (cell_step sp x y s) = life_chance s.
Proof.
  intros (Hold & _ & _) Hx Hy. unfold cell_step.
  cbn [self_grid life_chance].
  destruct (spawn_fires sp x y s); cbn [Z.b2z].
  - split; [|reflexivity]. unfold alive_at.
    now rewrite (cell_at_put_eq w h).
  - split; [reflexivity|lia].
Qed.

Lemma spawn_fires_saturated (sp : bool) (x y : Z) (s : Scan) :
  1000 <= life_chance s -> spawn_fires sp x y s = false.
Proof.
  intros Hlc. unfold spawn_fires.
  destruct (Z.ltb_spec (life_chance s) 1000); [lia|].
  now rewrite andb_false_r, andb_false_l, andb_false_r.
Qed.

(** C5, as the code has it.  The threshold [life_chance] belongs to one
    call of [update]: every call enters its scan with the threshold 1.
    Within the call a cell changes the threshold only by spawning, which
    needs a dead cell, the draw 1, a threshold below 1000 and the spawning
    flag, and which adds exactly 1; from 1000 on nothing spawns.  The call
    ends with a threshold between 1 and 1000 that is 1 plus the number of
    cells revived in the old generation. *)
Theorem spawn_threshold_is_per_update
  (r : Random) (g : Grid) (s : Scan) (x y : Z) :
  wf g -> scan_ok (Z.max 0 (width g)) (Z.max 0 (height g)) s ->
  inside (width g) (height g) x y ->
  (forall r' g', life_chance (update_enter r' g') = 1) /\
  (exists s', update_cell (spawing g) x y s = Ok s' /\
     spawn_fires (spawing g) x y s =
       negb (alive_at (self_grid s) x y) &&
       ((draw s =? 1) && (life_chance s <? 1000) && spawing g) /\
     (if spawn_fires (spawing g) x y s then
        alive_at (self_grid s') x y = true /\
        life_chance s' = life_chance s + 1
      else self_grid s' = self_grid s /\ life_chance s' = life_chance s) /\
     (1000 <= life_chance s ->
      self_grid s' = self_grid s /\ life_chance s' = life_chance s)) /\
  (exists s', update_scan r g = Ok s' /\
     1 <= life_chance s' <= 1000 /\
     life_chance s' =
       1 + (alive_in_cells (self_grid s') - alive_in_cells (grid g))).
Proof.
  intros Hwf Hs [Hx Hy]. split; [reflexivity|]. split.
  - exists (cell_step (spawing g) x y s).
    pose proof (cell_step_spawn _ _ (spawing g) x y s Hs) as Hstep.
    split; [apply (update_cell_step _ _ _ _ _ _ Hs); lia|].
    split; [reflexivity|]. split; [apply Hstep; lia|].
    intros Hsat. rewrite (spawn_fires_saturated _ _ _ _ Hsat) in Hstep.
    apply Hstep; lia.
  - rewrite (update_scan_cells r g Hwf). eexists. split; [reflexivity|].
    destruct (scan_threshold _ _ (spawing g)
                (positions (width g) (height g)) (update_enter r g)
                (update_enter_ok r g Hwf)) as (H1 & H2 & H3).
    + intros [px py] Hp. apply in_positions in Hp. cbn. lia.
    + cbn [update_enter life_chance self_grid] in H1, H2, H3. lia.
Qed.

(** ** The keyboard *)

Lemma process_input_speed_range (e : Event) (c : Controls) :
  5 <= simulation_speed c <= 120 ->
  5 <= simulation_speed (process_input e c) <= 120.
Proof.
  intros Hc. destruct e as [[| | | |code]| |ty]; cbn; try lia.
  destruct (flip_flop c =? 1); cbn; lia.
Qed.

Lemma process_events_speed_range (events : list Event) (c : Controls) :
  5 <= simulation_speed c <= 120 ->
  5 <= simulation_speed (process_events events c) <= 120.
Proof.
  revert c. induction events as [|e events IH]; intros c Hc; [exact Hc|].
  cbn [process_events fold_left]. apply IH.
  now apply process_input_speed_range.
Qed.

(** C8.  From a speed in [5, 120] the speed-up key gives
    [min (speed + 5) 120] and the speed-down key [max (speed - 5) 5]; at
    120 speed-up keeps 120, at 5 speed-down keeps 5, and after any sequence
    of events the speed is still in [5, 120]. *)
Theorem speed_keys_clamp (c : Controls) (events : list Event) :
  5 <= simulation_speed c <= 120 ->
  simulation_speed (process_input (KEYDOWN K_EQUALS) c) =
    Z.min (simulation_speed c + 5) 120 /\
  simulation_speed (process_input (KEYDOWN K_MINUS) c) =
    Z.max (simulation_speed c - 5) 5 /\
  (simulation_speed c = 120 ->
   simulation_speed (process_input (KEYDOWN K_EQUALS) c) = 120) /\
  (simulation_speed c = 5 ->
   simulation_speed (process_input (KEYDOWN K_MINUS) c) = 5) /\
  5 <= simulation_speed (process_events events c) <= 120.
Proof.
  intros Hc. cbn [process_input simulation_speed].
  split; [reflexivity|]. split; [reflexivity|].
  split; [lia|]. split; [lia|]. now apply process_events_speed_range.
Qed.

(** ** Concrete runs *)

Lemma spawning_1x1_wf : wf spawning_1x1.
Proof. apply (Grid_init_wf 1 1 8). Qed.

Lemma first_draw_is_one (r : Random) (g : Grid) : draw (update_enter r g) = 1.
Proof.
  unfold draw, update_enter. cbn [life_chance rnd].
  change (1 - 1 + 1) with 1. now rewrite Z.mod_1_r.
Qed.

Lemma scan_spawning_1x1 (r : Random) :
  update_scan r spawning_1x1 =
  Ok (mkScan (cells_of [[true]]) (cells_of [[false]]) 0 2
        (mkRandom (tape r) (S (pos r)))).
Proof.
  rewrite (update_scan_cells r _ spawning_1x1_wf). f_equal.
  change (positions (width spawning_1x1) (height spawning_1x1))
    with [(0, 0)].
  rewrite scan_cells_cons. cbn [scan_cells fold_left fst snd].
  unfold cell_step, spawn_fires. rewrite first_draw_is_one. reflexivity.
Qed.

(** C4, evaluated.  On a grid of one dead cell with spawning enabled the
    first draw is 1 whatever the random module holds, so the spawn fires:
    the old generation's cell is set alive and the threshold goes to 2.
    The grid that [update] installs has the cell dead all the same, with
    [alive_count] 0. *)
Theorem spawned_cell_is_dead_in_next_generation (r : Random) :
  alive_at (grid spawning_1x1) 0 0 = false /\
  draw (update_enter r spawning_1x1) = 1 /\
  spawn_fires true 0 0 (update_enter r spawning_1x1) = true /\
  exists s g' r',
    update_scan r spawning_1x1 = Ok s /\
    alive_at (self_grid s) 0 0 = true /\ life_chance s = 2 /\
    update r spawning_1x1 = Ok (g', r') /\
    alive_at (grid g') 0 0 = false /\ alive_count g' = 0.
Proof.
  split; [reflexivity|]. split; [apply first_draw_is_one|]. split.
  - unfold spawn_fires. rewrite first_draw_is_one. reflexivity.
  - unfold update. rewrite scan_spawning_1x1. cbn [bind].
    do 3 eexists. repeat split; reflexivity.
Qed.

(** C5 as stated fails.  Two calls of [update] in a row on the one-cell
    grid with spawning enabled: the first ends with the threshold 2, the
    second enters its scan with the threshold 1 again, spawns with
    certainty and ends with 2, not 3. *)
Lemma threshold_reset_between_updates :
  exists s1 g1 r1 s2,
    update_scan tape0 spawning_1x1 = Ok s1 /\ life_chance s1 = 2 /\
    update tape0 spawning_1x1 = Ok (g1, r1) /\
    life_chance (update_enter r1 g1) = 1 /\
    life_chance (update_enter r1 g1) <> life_chance s1 /\
    spawn_fires (spawing g1) 0 0 (update_enter r1 g1) = true /\
    update_scan r1 g1 = Ok s2 /\ life_chance s2 = 2.
Proof.
  do 4 eexists. split; [apply scan_spawning_1x1|]. split; [reflexivity|].
  split; [unfold update; rewrite scan_spawning_1x1; reflexivity|].
  split; [reflexivity|]. split; [discriminate|]. split; [reflexivity|].
  split; [apply (scan_spawning_1x1 (mkRandom (tape tape0) 1))|reflexivity].
Qed.

(** C6, evaluated.  A click on the only cell of a fresh 1 by 1 grid makes
    the cell alive and leaves [alive_count] at 0. *)
Theorem mouse_toggle_leaves_alive_count_stale :
  alive_count (Grid_init 1 1 8) = alive_in_cells (grid (Grid_init 1 1 8)) /\
  exists g',
    handle_mouse_input (click_at 0 0) (Grid_init 1 1 8) 8 = Ok g' /\
    alive_in_cells (grid g') = 1 /\ alive_count g' = 0.
Proof.
  split; [reflexivity|]. eexists. split; [reflexivity|].
  split; reflexivity.
Qed.

(** [handle_mouse_input] never writes [alive_count]. *)
Lemma handle_mouse_input_alive_count (m : Mouse) (g g' : Grid) (cs : Z) :
  handle_mouse_input m g cs = Ok g' -> alive_count g' = alive_count g.
Proof.
  unfold handle_mouse_input. destruct (pressed m); [|now intros [= <-]].
  destruct (mouse_pos m) as [x y].
  destruct (floordiv x cs) as [gx|e]; cbn [bind]; [|discriminate].
  destruct (floordiv y cs) as [gy|e]; cbn [bind]; [|discriminate].
  destruct ((0 <=? gx) && (gx <? width g) && ((0 <=? gy) && (gy <? height g)));
    [|now intros [= <-]].
  destruct (getitem (grid g) gx) as [col|e]; cbn [bind]; [|discriminate].
  destruct (getitem col gy) as [c|e]; cbn [bind]; [|discriminate].
  destruct (set_is_alive (grid g) gx gy (negb (is_alive c))) as [cs'|e];
    cbn [bind]; [|discriminate].
  now intros [= <-].
Qed.

(** C7, evaluated.  [main] starts with spawning disabled and the latch at
    1; the first press of [s] takes the branch that disables spawning, so
    the flag is still false after it. *)
Theorem first_s_press_leaves_spawning_off :
  spawing (game_world main_init) = false /\
  flip_flop main_init = 1 /\
  spawing (game_world (process_input (KEYDOWN K_s) main_init)) = false.
Proof. repeat split. Qed.

(** Once the latch and the flag agree, as they do after any press of [s],
    every further press inverts the flag. *)
Lemma s_press_sets_latch (c : Controls) :
  let c' := process_input (KEYDOWN K_s) c in
  (flip_flop c' =? 1) = spawing (game_world c').
Proof. cbn. now destruct (flip_flop c =? 1). Qed.

Lemma s_press_flips_when_latched (c : Controls) :
  (flip_flop c =? 1) = spawing (game_world c) ->
  spawing (game_world (process_input (KEYDOWN K_s) c)) =
  negb (spawing (game_world c)).
Proof. cbn. intros <-. now destruct (flip_flop c =? 1). Qed.

(** ** The theorems at concrete inputs *)

Lemma check_neighbors_counts_moore_neighbors_witness :
  rect 2 2 (grid block) /\ inside 2 2 0 0 /\
  (check_neighbors (mkCell true) (grid block) 0 0 =
     Ok (alive_neighbors (grid block) 0 0) /\
   0 <= alive_neighbors (grid block) 0 0 <= 8 /\
   (corner 2 2 0 0 -> alive_neighbors (grid block) 0 0 <= 3)).
Proof.
  split; [solve_rect|]. split; [unfold inside; lia|].
  apply (check_neighbors_counts_moore_neighbors 2 2 (mkCell true)
           (grid block) 0 0); [solve_rect|unfold inside; lia].
Defined.

Lemma update_follows_conway_rule_witness :
  wf blinker /\ spawing blinker = false /\
  exists g' r', update tape0 blinker = Ok (g', r') /\
    forall x y, inside (width blinker) (height blinker) x y ->
      exists c c',
        cell_at (grid blinker) x y = Some c /\
        cell_at (grid g') x y = Some c' /\
        (is_alive c = true ->
         (is_alive c' = true <->
          alive_neighbors (grid blinker) x y = 2 \/
          alive_neighbors (grid blinker) x y = 3)) /\
        (is_alive c = false ->
         (is_alive c' = true <-> alive_neighbors (grid blinker) x y = 3)).
Proof.
  split; [solve_rect|]. split; [reflexivity|].
  apply (update_follows_conway_rule tape0 blinker); [solve_rect|reflexivity].
Defined.

Lemma update_alive_count_exact_witness :
  wf spawning_1x1 /\
  exists g' r', update tape1 spawning_1x1 = Ok (g', r') /\
    alive_count g' = alive_in_cells (grid g').
Proof.
  split; [solve_rect|].
  apply (update_alive_count_exact tape1 spawning_1x1); solve_rect.
Defined.

Lemma update_cannot_fail_witness :
  wf (Grid_init 0 3 8) /\
  (exists g' r', update tape0 (Grid_init 0 3 8) = Ok (g', r') /\ wf g' /\
     width g' = width (Grid_init 0 3 8) /\
     height g' = height (Grid_init 0 3 8)) /\
  (width (Grid_init 0 3 8) <= 0 \/ height (Grid_init 0 3 8) <= 0 ->
   exists g', update tape0 (Grid_init 0 3 8) = Ok (g', tape0) /\
     grid g' = grid (Grid_init 0 3 8) /\
     alive_in_cells (grid g') = 0 /\ alive_count g' = 0 /\
     (alive_count (Grid_init 0 3 8) = 0 -> g' = Grid_init 0 3 8)).
Proof.
  split; [solve_rect|].
  apply (update_cannot_fail tape0 (Grid_init 0 3 8)); solve_rect.
Defined.

Lemma update_without_spawning_ignores_draws_witness :
  spawing blinker = false /\
  result_map fst (update tape0 blinker) = result_map fst (update tape1 blinker).
Proof.
  split; [reflexivity|].
  apply (update_without_spawning_ignores_draws tape0 tape1 blinker).
  reflexivity.
Defined.

Lemma spawn_threshold_is_per_update_witness :
  wf spawning_1x1 /\
  scan_ok 1 1 (update_enter tape1 spawning_1x1) /\
  inside 1 1 0 0 /\
  exists s', update_scan tape1 spawning_1x1 = Ok s' /\
    1 <= life_chance s' <= 1000 /\
    life_chance s' =
      1 + (alive_in_cells (self_grid s') - alive_in_cells (grid spawning_1x1)).
Proof.
  assert (Hwf : wf spawning_1x1) by solve_rect.
  assert (Hs : scan_ok 1 1 (update_enter tape1 spawning_1x1)).
  { split; [solve_rect|]. split; [solve_rect|]. cbn. lia. }
  assert (Hin : inside 1 1 0 0) by (unfold inside; lia).
  split; [exact Hwf|]. split; [exact Hs|]. split; [exact Hin|].
  exact (proj2 (proj2 (spawn_threshold_is_per_update tape1 spawning_1x1
                         (update_enter tape1 spawning_1x1) 0 0 Hwf Hs Hin))).
Defined.

Lemma speed_keys_clamp_witness :
  5 <= simulation_speed main_init <= 120 /\
  simulation_speed (process_input (KEYDOWN K_EQUALS) main_init) =
    Z.min (simulation_speed main_init + 5) 120 /\
  simulation_speed (process_input (KEYDOWN K_MINUS) main_init) =
    Z.max (simulation_speed main_init - 5) 5 /\
  (simulation_speed main_init = 120 ->
   simulation_speed (process_input (KEYDOWN K_EQUALS) main_init) = 120) /\
  (simulation_speed main_init = 5 ->
   simulation_speed (process_input (KEYDOWN K_MINUS) main_init) = 5) /\
  5 <= simulation_speed
         (process_events [KEYDOWN K_MINUS; KEYDOWN K_MINUS; KEYDOWN K_s]
            main_init) <= 120.
Proof.
  split; [cbn; lia|].
  apply (speed_keys_clamp main_init
           [KEYDOWN K_MINUS; KEYDOWN K_MINUS; KEYDOWN K_s]).
  cbn. lia.
Defined.

(** ** The scenarios of the specification *)

Example block_is_still :
  result_map fst (update tape0 block) = Ok block.
Proof. reflexivity. Qed.

Example lone_cell_dies :
  result_map fst (update tape0 lone_cell) =
  Ok (mkGrid 5 5 8 (fresh_cells 5 5) 0 false).
Proof. reflexivity. Qed.

Example blinker_turns :
  result_map fst (update tape0 blinker) =
  Ok (mkGrid 3 3 8
        (cells_of [[false; false; false]; [true; true; true];
                   [false; false; false]]) 3 false).
Proof. reflexivity. Qed.

(** A spawn is seen by the cells scanned after it: with every draw equal to
    1 all nine cells of an empty 3 by 3 grid are revived in the old
    generation, and the two cells that then count three neighbours are
    born. *)
Example spawns_feed_later_counts :
  result_map fst (update tape0 (with_spawing (Grid_init 3 3 8) true)) =
  Ok (mkGrid 3 3 8
        (cells_of [[false; false; false]; [false; false; true];
                   [false; false; true]]) 2 true).
Proof. reflexivity. Qed.

Example second_s_press_enables_spawning :
  spawing (game_world
             (process_events [KEYDOWN K_s; KEYDOWN K_s] main_init)) = true.
Proof. reflexivity. Qed.

(** ** The keyboard over whole event sequences *)

Lemma process_events_snoc (evs : list Event) (e : Event) (c : Controls) :
  process_events (evs ++ [e]) c = process_input e (process_events evs c).
Proof. unfold process_events. now rewrite fold_left_app. Qed.

Lemma presses_snoc (k : Key) (evs : list Event) (e : Event) :
  presses k (evs ++ [e]) =
  (presses k evs + (if is_key k e then 1 else 0))%nat.
Proof.
  unfold presses. rewrite List.filter_app, length_app. cbn [List.filter].
  now destruct (is_key k e).
Qed.

Lemma process_input_world (e : Event) (c : Controls) :
  game_world (process_input e c) =
  with_spawing (game_world c) (spawing (game_world (process_input e c))).
Proof.
  destruct e as [[| | | |code]| |ty]; cbn;
    try (now destruct (game_world c)).
  destruct (flip_flop c =? 1); reflexivity.
Qed.

Lemma process_events_world_eq (evs : list Event) (c : Controls) :
  game_world (process_events evs c) =
  with_spawing (game_world c) (spawing (game_world (process_events evs c))).
Proof.
  induction evs as [|e evs IH] using rev_ind.
  - cbn. now destruct (game_world c).
  - rewrite process_events_snoc, process_input_world, IH. reflexivity.
Qed.

(** The keyboard reaches the grid object through the spawning flag only:
    after any events the cells, the dimensions, the cell size and
    [alive_count] are those from before. *)
Theorem process_events_world (evs : list Event) (c : Controls) :
  game_world (process_events evs c) =
  with_spawing (game_world c) (spawing (game_world (process_events evs c))).
Proof. apply process_events_world_eq. Qed.

Lemma process_events_paused (evs : list Event) (c : Controls) :
  paused (process_events evs c) =
  xorb (paused c) (Nat.odd (presses K_SPACE evs)).
Proof.
  induction evs as [|e evs IH] using rev_ind.
  - cbn. now rewrite xorb_false_r.
  - rewrite process_events_snoc, presses_snoc.
    destruct e as [[| | | |code]| |ty]; cbn [is_key];
      rewrite ?Nat.add_0_r; try exact IH.
    + cbn [process_input paused]. rewrite IH, Nat.add_1_r, Nat.odd_succ.
      rewrite <- Nat.negb_odd. now destruct (paused c), (Nat.odd _).
    + cbn [process_input]. now destruct (flip_flop _ =? 1).
Qed.

(** The pause flag after a sequence of events is the flag from before,
    inverted once for every SPACE key-down in the sequence; no other event
    touches it. *)
Theorem pause_counts_space_presses (evs : list Event) (c : Controls) :
  paused (process_events evs c) =
  xorb (paused c) (Nat.odd (presses K_SPACE evs)).
Proof. apply process_events_paused. Qed.

(** From the state [main] starts in, spawning is enabled after a sequence
    of events exactly when the number of [s] key-downs in it is even and
    not zero: the first press leaves it off, every later one inverts it. *)
Theorem spawning_counts_s_presses (evs : list Event) :
  spawing (game_world (process_events evs main_init)) =
  Nat.even (presses K_s evs) && negb (presses K_s evs =? 0)%nat.
Proof.
  enough (H : flip_flop (process_events evs main_init) =
              (if Nat.even (presses K_s evs) then 1 else 2) /\
              spawing (game_world (process_events evs main_init)) =
              Nat.even (presses K_s evs) && negb (presses K_s evs =? 0)%nat)
    by apply H.
  induction evs as [|e evs [IHf IHs]] using rev_ind.
  - split; reflexivity.
  - rewrite process_events_snoc, presses_snoc.
    destruct e as [[| | | |code]| |ty]; cbn [is_key];
      rewrite ?Nat.add_0_r; try (split; [exact IHf|exact IHs]).
    cbn [process_input]. rewrite IHf, Nat.add_1_r, Nat.even_succ.
    rewrite <- Nat.negb_even.
    destruct (Nat.even (presses K_s evs)); cbn; split; reflexivity.
Qed.

Lemma process_input_speed_step (e : Event) (c : Controls) :
  simulation_speed c mod 5 = 0 ->
  simulation_speed (process_input e c) mod 5 = 0.
Proof.
  intros Hc. destruct e as [[| | | |code]| |ty]; cbn; try exact Hc.
  - destruct (Z.min_spec (simulation_speed c + 5) 120) as [[_ ->]|[_ ->]];
      [|reflexivity].
    replace (simulation_speed c + 5) with (simulation_speed c + 1 * 5)
      by lia.
    rewrite Z.mod_add by lia. exact Hc.
  - destruct (Z.max_spec (simulation_speed c - 5) 5) as [[_ ->]|[_ ->]];
      [reflexivity|].
    replace (simulation_speed c - 5) with (simulation_speed c + (-1) * 5)
      by lia.
    rewrite Z.mod_add by lia. exact Hc.
  - destruct (flip_flop c =? 1); exact Hc.
Qed.

(** The speed keys move in steps of 5 and clamp at multiples of 5, so a
    speed that is a multiple of 5 stays one under any events. *)
Theorem speed_stays_multiple_of_5 (evs : list Event) (c : Controls) :
  simulation_speed c mod 5 = 0 ->
  simulation_speed (process_events evs c) mod 5 = 0.
Proof.
  intros Hc. induction evs as [|e evs IH] using rev_ind; [exact Hc|].
  rewrite process_events_snoc. now apply process_input_speed_step.
Qed.

(** Away from the clamps the two speed keys undo each other: speed-up
    then speed-down gives the speed back from 5 to 115, speed-down then
    speed-up from 10 to 120. *)
Theorem speed_keys_undo_each_other (c : Controls) :
  (5 <= simulation_speed c <= 115 ->
   simulation_speed
     (process_events [KEYDOWN K_EQUALS; KEYDOWN K_MINUS] c) =
   simulation_speed c) /\
  (10 <= simulation_speed c <= 120 ->
   simulation_speed
     (process_events [KEYDOWN K_MINUS; KEYDOWN K_EQUALS] c) =
   simulation_speed c).
Proof. cbn. split; lia. Qed.

(** ** Grids compared cell by cell *)

Lemma cell_eta (c : Cell) : mkCell (is_alive c) = c.
Proof. now destruct c. Qed.

Lemma rect_ext (w h : Z) (g1 g2 : cells) :
  rect w h g1 -> rect w h g2 ->
  (forall x y, inside w h x y -> alive_at g1 x y = alive_at g2 x y) ->
  g1 = g2.
Proof.
  intros H1 H2 Hsame. apply list_eq. intros i.
  destruct (g1 !! i) as [col1|] eqn:E1.
  - pose proof (lookup_lt_Some _ _ _ E1) as Hi.
    destruct H1 as [Hw1 Hall1], H2 as [Hw2 Hall2]. unfold len in Hw1, Hw2.
    destruct (lookup_lt_is_Some_2 g2 i) as [col2 E2]; [lia|].
    rewrite E2. f_equal. apply list_eq. intros j.
    pose proof (rect_column w h g1 i col1 (conj Hw1 Hall1) E1) as Hh1.
    pose proof (rect_column w h g2 i col2 (conj Hw2 Hall2) E2) as Hh2.
    unfold len in Hh1, Hh2.
    destruct (col1 !! j) as [c1|] eqn:F1.
    + pose proof (lookup_lt_Some _ _ _ F1) as Hj.
      destruct (lookup_lt_is_Some_2 col2 j) as [c2 F2]; [lia|].
      rewrite F2. f_equal.
      specialize (Hsame (Z.of_nat i) (Z.of_nat j)).
      unfold alive_at, cell_at in Hsame.
      destruct (Z.ltb_spec (Z.of_nat i) 0); [lia|].
      destruct (Z.ltb_spec (Z.of_nat j) 0); [lia|].
      cbn [orb] in Hsame. rewrite !Nat2Z.id, E1, E2, F1, F2 in Hsame.
      rewrite <- (cell_eta c1), <- (cell_eta c2). f_equal.
      apply Hsame. unfold inside. lia.
    + symmetry. apply lookup_ge_None. apply lookup_ge_None in F1. lia.
  - symmetry. apply lookup_ge_None. apply lookup_ge_None in E1.
    destruct H1 as [Hw1 _], H2 as [Hw2 _]. unfold len in *. lia.
Qed.

Lemma put_put (g : cells) (x y : Z) (a b : bool) :
  put (put g x y a) x y b = put g x y b.
Proof.
  unfold put. destruct (g !! Z.to_nat x) as [col|] eqn:Hcol.
  - rewrite list_lookup_insert_eq by (eapply lookup_lt_Some; eassumption).
    now rewrite !list_insert_insert_eq.
  - now rewrite Hcol.
Qed.

Lemma put_same (g : cells) (x y : Z) (c : Cell) :
  cell_at g x y = Some c -> put g x y (is_alive c) = g.
Proof.
  unfold cell_at, put. destruct ((x <? 0) || (y <? 0)); [discriminate|].
  destruct (g !! Z.to_nat x) as [col|] eqn:Hcol; [|discriminate].
  intros Hc. rewrite cell_eta, (list_insert_id col _ c Hc).
  now apply list_insert_id.
Qed.

Lemma alive_at_put_eq (w h : Z) (g : cells) (x y : Z) (v : bool) :
  rect w h g -> 0 <= x < w -> 0 <= y < h -> alive_at (put g x y v) x y = v.
Proof.
  intros Hr Hx Hy. unfold alive_at. now rewrite (cell_at_put_eq w h).
Qed.

Lemma alive_at_put_ne (g : cells) (x y x' y' : Z) (v : bool) :
  0 <= x -> 0 <= y -> (x', y') <> (x, y) ->
  alive_at (put g x y v) x' y' = alive_at g x' y'.
Proof.
  intros Hx Hy Hne. unfold alive_at. now rewrite cell_at_put_ne.
Qed.

(** ** The mouse *)

Lemma classic_inside (w h x y : Z) : inside w h x y \/ ~ inside w h x y.
Proof. unfold inside. lia. Qed.

Lemma with_grid_same (g : Grid) : with_grid g (grid g) = g.
Proof. now destruct g. Qed.

Lemma handle_mouse_input_click (g : Grid) (cs px py : Z) :
  wf g -> cs <> 0 -> inside (width g) (height g) (px / cs) (py / cs) ->
  handle_mouse_input (click_at px py) g cs =
  Ok (with_grid g
        (put (grid g) (px / cs) (py / cs)
           (negb (alive_at (grid g) (px / cs) (py / cs))))).
Proof.
  intros Hwf Hcs [Hx Hy]. unfold handle_mouse_input, click_at, floordiv.
  cbn [pressed mouse_pos].
  destruct (Z.eqb_spec cs 0); [contradiction|]. cbn [bind].
  destruct (Z.leb_spec 0 (px / cs)); [|lia].
  destruct (Z.ltb_spec (px / cs) (width g)); [|lia].
  destruct (Z.leb_spec 0 (py / cs)); [|lia].
  destruct (Z.ltb_spec (py / cs) (height g)); [|lia]. cbn [andb].
  destruct (rect_cell_at _ _ _ (px / cs) (py / cs) Hwf)
    as (col & c & Hcol & Hc & _ & Hat); [lia|lia|].
  rewrite (getitem_lookup _ _ col) by (lia || assumption). cbn [bind].
  rewrite (getitem_lookup col _ c) by (lia || assumption). cbn [bind].
  rewrite (set_is_alive_put _ _ _ _ _ _ Hwf) by lia. cbn [bind].
  now rewrite (alive_at_cell _ _ _ _ Hat).
Qed.

Lemma handle_mouse_input_miss (g : Grid) (cs px py : Z) :
  cs <> 0 -> ~ inside (width g) (height g) (px / cs) (py / cs) ->
  handle_mouse_input (click_at px py) g cs = Ok g.
Proof.
  intros Hcs Hout. unfold handle_mouse_input, click_at, floordiv.
  cbn [pressed mouse_pos].
  destruct (Z.eqb_spec cs 0); [contradiction|]. cbn [bind].
  destruct (Z.leb_spec 0 (px / cs)); [|reflexivity].
  destruct (Z.ltb_spec (px / cs) (width g)); [|reflexivity].
  destruct (Z.leb_spec 0 (py / cs)); [|reflexivity].
  destruct (Z.ltb_spec (py / cs) (height g)); [|reflexivity].
  exfalso. apply Hout. unfold inside. lia.
Qed.

(** With a cell size of 0 the pixel-to-cell division raises
    [ZeroDivisionError] as soon as the button is held, whatever the grid
    and the cursor; with the button up nothing is computed and the grid
    comes back as it was. *)
Theorem mouse_zero_cell_size (m : Mouse) (g : Grid) :
  handle_mouse_input m g 0 =
  if pressed m then Raise ZeroDivisionError else Ok g.
Proof.
  unfold handle_mouse_input. destruct (pressed m); [|reflexivity].
  now destruct (mouse_pos m).
Qed.

(** A click that maps to a cell inside the grid inverts that cell and no
    other, keeps the dimensions, the spawning flag and [alive_count], and
    so moves the number of alive cells by one while the counter stands
    still. *)
Theorem mouse_click_toggles_one_cell (g : Grid) (cs px py : Z) :
  wf g -> cs <> 0 -> inside (width g) (height g) (px / cs) (py / cs) ->
  exists g',
    handle_mouse_input (click_at px py) g cs = Ok g' /\ wf g' /\
    alive_at (grid g') (px / cs) (py / cs) =
      negb (alive_at (grid g) (px / cs) (py / cs)) /\
    (forall x y, (x, y) <> (px / cs, py / cs) ->
       cell_at (grid g') x y = cell_at (grid g) x y) /\
    width g' = width g /\ height g' = height g /\
    spawing g' = spawing g /\ alive_count g' = alive_count g /\
    alive_in_cells (grid g') =
      alive_in_cells (grid g) +
      (if alive_at (grid g) (px / cs) (py / cs) then -1 else 1).
Proof.
  intros Hwf Hcs Hin. pose proof Hin as [Hx Hy].
  rewrite (handle_mouse_input_click g cs px py Hwf Hcs Hin).
  eexists. split; [reflexivity|]. cbn [with_grid grid width height
    spawing alive_count].
  destruct (rect_cell_at _ _ _ (px / cs) (py / cs) Hwf)
    as (_ & c & _ & _ & _ & Hat); [lia|lia|].
  split; [apply put_rect; exact Hwf|].
  split; [apply (alive_at_put_eq _ _ _ _ _ _ Hwf); lia|].
  split; [intros x y Hne; apply cell_at_put_ne; (lia || assumption)|].
  repeat (split; [reflexivity|]).
  rewrite (alive_in_cells_put _ _ _ c _ Hat), (alive_at_cell _ _ _ _ Hat).
  destruct (is_alive c); cbn; lia.
Qed.

(** A click whose cell lies outside the grid, a negative pixel position
    included, changes nothing. *)
Theorem mouse_click_outside_ignored (g : Grid) (cs px py : Z) :
  cs <> 0 -> ~ inside (width g) (height g) (px / cs) (py / cs) ->
  handle_mouse_input (click_at px py) g cs = Ok g.
Proof. apply handle_mouse_input_miss. Qed.

(** Polling the same mouse state twice gives the grid back: a held button
    inverts the cell under the cursor on every poll. *)
Theorem mouse_poll_twice_restores (m : Mouse) (g : Grid) (cs : Z) :
  wf g -> cs <> 0 ->
  exists g1, handle_mouse_input m g cs = Ok g1 /\
             handle_mouse_input m g1 cs = Ok g.
Proof.
  intros Hwf Hcs. destruct m as [[|] [px py]].
  - fold (click_at px py).
    destruct (classic_inside (width g) (height g) (px / cs) (py / cs))
      as [Hin|Hout].
    + rewrite (handle_mouse_input_click g cs px py Hwf Hcs Hin).
      eexists. split; [reflexivity|].
      pose proof Hin as [Hx Hy].
      destruct (rect_cell_at _ _ _ (px / cs) (py / cs) Hwf)
        as (_ & c & _ & _ & _ & Hat); [lia|lia|].
      rewrite handle_mouse_input_click.
      * cbn [with_grid grid]. rewrite put_put.
        rewrite (alive_at_put_eq _ _ _ _ _ _ Hwf) by lia.
        rewrite negb_involutive, (alive_at_cell _ _ _ _ Hat).
        rewrite (put_same _ _ _ _ Hat).
        unfold with_grid. cbn. now destruct g.
      * apply put_rect. exact Hwf.
      * exact Hcs.
      * exact Hin.
    + rewrite (handle_mouse_input_miss g cs px py Hcs Hout).
      exists g. split; [reflexivity|].
      now apply handle_mouse_input_miss.
  - exists g. split; reflexivity.
Qed.

(** ** Drawing *)

Lemma draw_cell_inside (g : Grid) (x y : Z) (screen : Screen) :
  wf g -> inside (width g) (height g) x y ->
  draw_cell g x y screen = Ok (screen ++ [paint g (x, y)]).
Proof.
  intros Hwf [Hx Hy].
  destruct (rect_cell_at _ _ _ x y Hwf) as (col & c & Hcol & Hc & _ & Hat);
    [lia|lia|].
  unfold draw_cell, paint. cbn [fst snd].
  rewrite (getitem_lookup _ x col) by (lia || assumption). cbn [bind].
  rewrite (getitem_lookup col y c) by (lia || assumption). cbn [bind].
  now rewrite (alive_at_cell _ _ _ _ Hat).
Qed.

Lemma draw_inner_loop (g : Grid) (x : Z) (ys : list Z) (screen : Screen) :
  wf g -> 0 <= x < width g -> (forall y, In y ys -> 0 <= y < height g) ->
  for_each (fun y s' => draw_cell g x y s') ys screen =
  Ok (screen ++ map (fun y => paint g (x, y)) ys).
Proof.
  intros Hwf Hx. revert screen.
  induction ys as [|y ys IH]; intros screen Hys.
  - cbn. now rewrite app_nil_r.
  - cbn [for_each map].
    rewrite draw_cell_inside
      by (assumption || (split; [exact Hx|apply Hys; apply in_eq])).
    cbn [bind]. rewrite IH by (intros y' Hy'; apply Hys; now right).
    now rewrite <- app_assoc.
Qed.

Lemma draw_outer_loop (g : Grid) (xs ys : list Z) (screen : Screen) :
  wf g ->
  (forall x, In x xs -> 0 <= x < width g) ->
  (forall y, In y ys -> 0 <= y < height g) ->
  for_each (fun x s => for_each (fun y s' => draw_cell g x y s') ys s)
    xs screen =
  Ok (screen ++
      map (paint g) (flat_map (fun x => map (fun y => (x, y)) ys) xs)).
Proof.
  intros Hwf Hxs Hys. revert screen.
  induction xs as [|x xs IH]; intros screen.
  - cbn. now rewrite app_nil_r.
  - cbn [for_each flat_map].
    rewrite draw_inner_loop by (assumption || (apply Hxs; apply in_eq)).
    cbn [bind]. rewrite IH by (intros x' Hx'; apply Hxs; now right).
    rewrite <- app_assoc, map_app, map_map. reflexivity.
Qed.

Lemma length_positions (w h : Z) :
  length (positions w h) = (Z.to_nat w * Z.to_nat h)%nat.
Proof.
  unfold positions. rewrite <- (length_seqZ 0 w), <- (length_seqZ 0 h).
  fold (range w). fold (range h).
  induction (range w) as [|x xs IH]; [reflexivity|].
  cbn [flat_map length]. rewrite length_app, length_map, IH. lia.
Qed.



Lemma Grid_draw_fresh_screen (g : Grid) :
  wf g ->
  Grid_draw g [] = Ok (map (paint g) (positions (width g) (height g))).
Proof.
  intros Hwf. unfold Grid_draw, positions.
  rewrite (draw_outer_loop g _ _ [] Hwf); [reflexivity| |].
  - intros x Hx. now apply in_range in Hx.
  - intros y Hy. now apply in_range in Hy.
Qed.



(** The picture tells the generation: two well-formed grids of the same
    dimensions that [draw] paints alike have the same cells. *)
Theorem draw_determines_cells (g1 g2 : Grid) :
  wf g1 -> wf g2 -> width g1 = width g2 -> height g1 = height g2 ->
  Grid_draw g1 [] = Grid_draw g2 [] -> grid g1 = grid g2.
Proof.
  intros H1 H2 Hw Hh Hpic.
  rewrite (Grid_draw_fresh_screen g1 H1) in Hpic.
  rewrite (Grid_draw_fresh_screen g2 H2) in Hpic.
  rewrite <- Hw, <- Hh in Hpic. injection Hpic as Hmap.
  apply (rect_ext (Z.max 0 (width g1)) (Z.max 0 (height g1)));
    [exact H1|now rewrite Hw, Hh|].
  intros x y [Hx Hy].
  assert (Hin : In (x, y) (positions (width g1) (height g1)))
    by (apply in_positions; lia).
  pose proof (proj1 map_ext_in_iff Hmap (x, y) Hin) as Hp.
  unfold paint in Hp. cbn [fst snd] in Hp. injection Hp as Hc _.
  destruct (alive_at (grid g1) x y), (alive_at (grid g2) x y);
    (reflexivity || discriminate).
Qed.


(** ** More on the generation step *)

Lemma scan_cells_rnd (sp : bool) (ps : list (Z * Z)) (s : Scan) :
  rnd (scan_cells sp ps s) =
  mkRandom (tape (rnd s)) (pos (rnd s) + length ps).
Proof.
  revert s. induction ps as [|p ps IH]; intros s.
  - cbn. rewrite Nat.add_0_r. now destruct (rnd s).
  - rewrite scan_cells_cons, IH. cbn [cell_step rnd tape pos length].
    f_equal. lia.
Qed.

Lemma update_advances_random (r : Random) (g : Grid) :
  wf g ->
  exists g',
    update r g =
    Ok (g', mkRandom (tape r)
              (pos r + Z.to_nat (width g) * Z.to_nat (height g))).
Proof.
  intros Hwf. rewrite (update_ok r g Hwf). eexists.
  rewrite scan_cells_rnd, length_positions. reflexivity.
Qed.

(** [update] draws exactly one random number for every cell, spawning
    enabled or not: the random module comes back advanced by
    width times height draws. *)
Theorem update_draws_once_per_cell (r : Random) (g : Grid) :
  wf g ->
  exists g',
    update r g =
    Ok (g', mkRandom (tape r)
              (pos r + Z.to_nat (width g) * Z.to_nat (height g))).
Proof.
  intros Hwf. rewrite (update_ok r g Hwf). eexists.
  rewrite scan_cells_rnd, length_positions. reflexivity.
Qed.

Lemma alive_in_column_bounds (col : list Cell) :
  0 <= alive_in_column col <= len col.
Proof.
  unfold len. induction col as [|c col IH]; cbn [alive_in_column length].
  - lia.
  - destruct (is_alive c); lia.
Qed.

Lemma alive_in_cells_bounds (w h : Z) (g : cells) :
  rect w h g -> 0 <= alive_in_cells g <= w * h.
Proof.
  intros [Hw Hall]. subst w. unfold len.
  induction Hall as [|col g Hcol Hall IH]; cbn [alive_in_cells length].
  - lia.
  - pose proof (alive_in_column_bounds col). nia.
Qed.

(** After [update] the counter lies between 0 and the number of cells,
    and the cell size and the spawning flag are those from before. *)
Theorem update_alive_count_bounds (r : Random) (g : Grid) :
  wf g ->
  exists g' r', update r g = Ok (g', r') /\
    0 <= alive_count g' <= Z.max 0 (width g) * Z.max 0 (height g) /\
    cell_size g' = cell_size g /\ spawing g' = spawing g.
Proof.
  intros Hwf. rewrite (update_ok r g Hwf).
  eexists. eexists. split; [reflexivity|].
  split; [|split; reflexivity].
  cbn [update_leave alive_count].
  rewrite (scan_counts_new_grid (Z.max 0 (width g)) (Z.max 0 (height g))).
  - apply alive_in_cells_bounds. apply scan_cells_ok.
    apply update_enter_ok. exact Hwf.
  - apply update_enter_ok. exact Hwf.
  - apply NoDup_positions.
  - intros [px py] Hp. apply in_positions in Hp. cbn. lia.
  - intros p _. apply fresh_cells_alive_at.
  - cbn [update_enter new_grid new_alive_count].
    now rewrite fresh_cells_none_alive.
Qed.

Lemma alive_in_column_zero (col : list Cell) (j : nat) (c : Cell) :
  alive_in_column col = 0 -> col !! j = Some c -> is_alive c = false.
Proof.
  revert j. induction col as [|a col IH]; intros [|j] Hz Hl;
    try discriminate; cbn [alive_in_column] in Hz;
    pose proof (alive_in_column_bounds col).
  - injection Hl as ->. destruct (is_alive c); [lia|reflexivity].
  - apply (IH j); [|exact Hl]. destruct (is_alive a); lia.
Qed.

Lemma alive_in_cells_zero (g : cells) (x y : Z) :
  alive_in_cells g = 0 -> alive_at g x y = false.
Proof.
  intros Hz. unfold alive_at, cell_at.
  destruct ((x <? 0) || (y <? 0)); [reflexivity|].
  generalize (Z.to_nat x) as i. clear x. intros i. revert i.
  induction g as [|col g IH]; intros [|i]; cbn; try reflexivity;
    cbn [alive_in_cells] in Hz;
    pose proof (alive_in_column_bounds col);
    assert (Hg : 0 <= alive_in_cells g)
      by (clear; induction g as [|c g IHg]; cbn [alive_in_cells];
          [lia|pose proof (alive_in_column_bounds c); lia]).
  - destruct (col !! Z.to_nat y) as [c|] eqn:Hc; [|reflexivity].
    apply (alive_in_column_zero col (Z.to_nat y) c); [lia|exact Hc].
  - apply IH. lia.
Qed.

Lemma alive_neighbors_none (g : cells) (x y : Z) :
  (forall x' y', alive_at g x' y' = false) -> alive_neighbors g x y = 0.
Proof.
  intros Hdead. unfold alive_neighbors.
  induction (moore_neighborhood x y) as [|p ps IH]; [reflexivity|].
  cbn [List.filter]. now rewrite Hdead.
Qed.

Lemma update_counts_and_keeps_shape (r : Random) (g : Grid) :
  wf g ->
  exists g' r', update r g = Ok (g', r') /\
    alive_count g' = alive_in_cells (grid g') /\
    rect (Z.max 0 (width g)) (Z.max 0 (height g)) (grid g').
Proof.
  intros Hwf. rewrite (update_ok r g Hwf).
  eexists. eexists. split; [reflexivity|]. split.
  - cbn [update_leave grid alive_count].
    apply (scan_counts_new_grid (Z.max 0 (width g)) (Z.max 0 (height g))).
    + apply update_enter_ok. exact Hwf.
    + apply NoDup_positions.
    + intros [px py] Hp. apply in_positions in Hp. cbn. lia.
    + intros p _. apply fresh_cells_alive_at.
    + cbn [update_enter new_grid new_alive_count].
      now rewrite fresh_cells_none_alive.
  - apply scan_cells_ok. apply update_enter_ok. exact Hwf.
Qed.

(** An empty world stays empty: with spawning off, a grid without an alive
    cell comes out of [update] with the same cells and the counter 0. *)
Theorem update_keeps_dead_grid (r : Random) (g : Grid) :
  wf g -> spawing g = false -> alive_in_cells (grid g) = 0 ->
  exists g' r', update r g = Ok (g', r') /\
    grid g' = grid g /\ alive_count g' = 0.
Proof.
  intros Hwf Hsp Hz.
  destruct (update_counts_and_keeps_shape r g Hwf) as (g' & r' & Hup & Hcnt & Hwf').
  exists g', r'. split; [exact Hup|].
  assert (Hgrid : grid g' = grid g).
  { rewrite (update_ok r g Hwf) in Hup. injection Hup as <- _.
    cbn [update_leave grid] in *.
    apply (rect_ext (Z.max 0 (width g)) (Z.max 0 (height g)));
      [exact Hwf'|exact Hwf|].
    intros x y [Hx Hy]. rewrite Hsp. unfold alive_at at 1.
    rewrite (scan_no_spawn_rule (Z.max 0 (width g)) (Z.max 0 (height g))).
    - cbn [update_enter self_grid is_alive].
      rewrite (alive_neighbors_none (grid g) x y)
        by (intros; now apply alive_in_cells_zero).
      now rewrite !(alive_in_cells_zero (grid g)).
    - apply update_enter_ok. exact Hwf.
    - apply NoDup_positions.
    - intros [px py] Hp. apply in_positions in Hp. cbn. lia.
    - apply in_positions. lia. }
  split; [exact Hgrid|]. now rewrite Hcnt, Hgrid.
Qed.

(** ** Spawns and the cells scanned after them *)





(** ** The neighbour count and single cells *)

Lemma alive_neighbors_terms (g : cells) (x y : Z) :
  alive_neighbors g x y =
  Z.b2z (alive_at g (x - 1) (y - 1)) + Z.b2z (alive_at g (x - 1) y) +
  Z.b2z (alive_at g (x - 1) (y + 1)) + Z.b2z (alive_at g x (y - 1)) +
  Z.b2z (alive_at g x (y + 1)) + Z.b2z (alive_at g (x + 1) (y - 1)) +
  Z.b2z (alive_at g (x + 1) y) + Z.b2z (alive_at g (x + 1) (y + 1)).
Proof.
  unfold alive_neighbors. rewrite moore_neighborhood_directions.
  fold (count_alive_at g (map (shift x y) directions)).
  unfold directions, shift. cbn [map fst snd].
  rewrite !count_alive_at_cons. cbn [fst snd].
  unfold count_alive_at. cbn [List.filter length].
  rewrite !Z.add_0_r. change (x + -1) with (x - 1).
  change (y + -1) with (y - 1).
  repeat match goal with
         | |- context [if ?b then 1 else 0] =>
             change (if b then 1 else 0) with (Z.b2z b)
         end.
  lia.
Qed.

(** On a rectangular grid [check_neighbors] raises nothing at any integer
    position, inside the grid or not: it returns a count between 0 and 8,
    and 0 when the position is two or more cells away from the grid.
    Negative neighbour positions are never read from the end of a list. *)
Theorem check_neighbors_any_position
  (w h : Z) (self : Cell) (g : cells) (x y : Z) :
  rect w h g ->
  exists n, check_neighbors self g x y = Ok n /\ 0 <= n <= 8 /\
    (x < -1 \/ w < x \/ y < -1 \/ h < y -> n = 0).
Proof.
  intros Hr. exists (alive_neighbors g x y).
  split; [now apply (check_neighbors_rect w h)|].
  split; [apply alive_neighbors_range|].
  intros Hfar. rewrite alive_neighbors_terms.
  rewrite !(alive_at_outside w h) by (assumption || lia). reflexivity.
Qed.

(** Writing one cell of the grid moves the neighbour count at [(x, y)]
    only when the cell is adjacent to [(x, y)], and then by exactly the
    change of that cell; the cell at [(x, y)] itself is not counted. *)
Theorem check_neighbors_after_write
  (w h : Z) (self : Cell) (g : cells) (x y x' y' : Z) (v : bool) :
  rect w h g -> inside w h x' y' ->
  exists g', set_is_alive g x' y' v = Ok g' /\
    (adjacent x y x' y' ->
     check_neighbors self g' x y =
     Ok (alive_neighbors g x y + Z.b2z v - Z.b2z (alive_at g x' y'))) /\
    (~ adjacent x y x' y' ->
     check_neighbors self g' x y = check_neighbors self g x y).
Proof.
  intros Hr [Hx' Hy']. rewrite (set_is_alive_put w h) by assumption.
  eexists. split; [reflexivity|].
  rewrite (check_neighbors_rect w h self (put g x' y' v))
    by (apply put_rect; exact Hr).
  rewrite (check_neighbors_rect w h self g) by exact Hr.
  rewrite !alive_neighbors_terms. split.
  - intros (Hax & Hay & Hne). f_equal.
    assert (Hcx : x' = x - 1 \/ x' = x \/ x' = x + 1) by lia.
    assert (Hcy : y' = y - 1 \/ y' = y \/ y' = y + 1) by lia.
    assert (Hnn : ~ (x' = x /\ y' = y))
      by (intros [-> ->]; now apply Hne).
    destruct Hcx as [Hcx|[Hcx|Hcx]], Hcy as [Hcy|[Hcy|Hcy]];
      try (exfalso; apply Hnn; split; assumption);
      repeat match goal with
             | |- context [alive_at (put g x' y' v) ?a ?b] =>
                 first
                   [ rewrite (alive_at_put_ne g x' y' a b v)
                       by first [lia | intros [= ]; lia]
                   | replace a with x' by lia; replace b with y' by lia;
                     rewrite (alive_at_put_eq w h g x' y' v Hr) by lia ]
             end; lia.
  - intros Hnadj. f_equal.
    rewrite !alive_at_put_ne;
      try lia;
      intros [= Hxe Hye]; apply Hnadj; unfold adjacent;
      (split; [lia|split; [lia|intros [= ]; lia]]).
Qed.

(** ** The loop of main *)

Lemma poll_events_spec (evs : list Event) (run : bool) (c : Controls) :
  poll_events evs (run, c) =
  (run && forallb (fun e => negb (is_quit e)) evs, process_events evs c).
Proof.
  revert run c. induction evs as [|e evs IH]; intros run c.
  - cbn. now rewrite andb_true_r.
  - cbn [poll_events fold_left]. unfold poll_event at 2. cbn [fst snd].
    fold (poll_events evs). rewrite IH. cbn [forallb process_events fold_left].
    f_equal. destruct e; cbn; try reflexivity. now rewrite andb_false_r.
Qed.

Lemma process_events_without_quit (evs : list Event) (c : Controls) :
  process_events (List.filter (fun e => negb (is_quit e)) evs) c =
  process_events evs c.
Proof.
  revert c. induction evs as [|e evs IH]; intros c; [reflexivity|].
  destruct e; cbn [List.filter is_quit negb]; cbn [process_events fold_left];
    apply IH.
Qed.

Lemma forallb_without_quit (evs : list Event) :
  forallb (fun e => negb (is_quit e))
    (List.filter (fun e => negb (is_quit e)) evs) = true.
Proof.
  induction evs as [|e evs IH]; [reflexivity|].
  destruct e; cbn; assumption.
Qed.

(** A [QUIT] event clears [running] and nothing else: the frame it arrives
    in still handles every other event, the mouse, the generation step and
    the drawing, exactly as the same frame without the [QUIT] events. *)
Theorem quit_frame_runs_to_its_end
  (cs : Z) (inp : FrameInput) (p : Program) :
  frame cs inp p =
  result_map
    (fun fr =>
       (set_running
          (running p && forallb (fun e => negb (is_quit e)) (events inp))
          (fst fr), snd fr))
    (frame cs (without_quit inp) p).
Proof.
  unfold frame, without_quit. cbn [events mouse].
  rewrite !poll_events_spec, process_events_without_quit,
    forallb_without_quit. cbn [fst snd].
  destruct (handle_mouse_input (mouse inp)
              (game_world (process_events (events inp) (controls p))) cs)
    as [gw|e]; cbn [bind result_map]; [|reflexivity].
  destruct (if paused (process_events (events inp) (controls p))
            then Ok (gw, random p) else update (random p) gw)
    as [upd|e]; cbn [bind result_map]; [|reflexivity].
  destruct (Grid_draw (fst upd) []) as [screen|e]; cbn [bind result_map];
    reflexivity.
Qed.

Lemma frame_running (cs : Z) (inp : FrameInput) (p p' : Program)
  (screen : Screen) :
  frame cs inp p = Ok (p', screen) ->
  running p' =
  running p && forallb (fun e => negb (is_quit e)) (events inp).
Proof.
  unfold frame. rewrite poll_events_spec. cbn [fst snd].
  destruct (handle_mouse_input _ _ _) as [gw|e]; cbn [bind]; [|discriminate].
  destruct (if paused _ then _ else _) as [upd|e]; cbn [bind];
    [|discriminate].
  destruct (Grid_draw _ _) as [sc|e]; cbn [bind]; [|discriminate].
  now intros [= <- _].
Qed.

(** The loop ends with the frame in which a [QUIT] event arrives: the
    inputs of later frames are never read. *)
Theorem quit_ends_loop
  (cs : Z) (inp : FrameInput) (rest : list FrameInput) (p : Program) :
  In QUIT (events inp) ->
  main_loop cs (inp :: rest) p = main_loop cs [inp] p.
Proof.
  intros Hq. cbn [main_loop]. destruct (running p); [|reflexivity].
  destruct (frame cs inp p) as [[p' screen]|e] eqn:Hfr; cbn [bind];
    [|reflexivity].
  apply frame_running in Hfr.
  assert (Hstop : running p' = false).
  { rewrite Hfr. apply andb_false_intro2.
    apply not_true_is_false. intros Hall.
    rewrite forallb_forall in Hall. now specialize (Hall QUIT Hq). }
  cbn [fst snd]. destruct rest as [|inp' rest]; [reflexivity|].
  cbn [main_loop]. now rewrite Hstop.
Qed.

Lemma handle_mouse_input_keeps (m : Mouse) (g g' : Grid) (cs : Z) :
  handle_mouse_input m g cs = Ok g' ->
  width g' = width g /\ height g' = height g.
Proof.
  unfold handle_mouse_input. destruct (pressed m); [|now intros [= <-]].
  destruct (mouse_pos m) as [x y].
  destruct (floordiv x cs) as [gx|e]; cbn [bind]; [|discriminate].
  destruct (floordiv y cs) as [gy|e]; cbn [bind]; [|discriminate].
  destruct ((0 <=? gx) && (gx <? width g) && ((0 <=? gy) && (gy <? height g)));
    [|now intros [= <-]].
  destruct (getitem (grid g) gx) as [col|e]; cbn [bind]; [|discriminate].
  destruct (getitem col gy) as [c|e]; cbn [bind]; [|discriminate].
  destruct (set_is_alive (grid g) gx gy (negb (is_alive c))) as [cs'|e];
    cbn [bind]; [|discriminate].
  now intros [= <-].
Qed.

Lemma update_full (r : Random) (g : Grid) :
  wf g ->
  exists g',
    update r g =
      Ok (g', mkRandom (tape r)
                (pos r + Z.to_nat (width g) * Z.to_nat (height g))) /\
    wf g' /\ width g' = width g /\ height g' = height g /\
    alive_count g' = alive_in_cells (grid g').
Proof.
  intros Hwf.
  destruct (update_counts_and_keeps_shape r g Hwf)
    as (g' & r' & Hup & Hcnt & Hrect).
  destruct (update_advances_random r g Hwf) as (g2 & Hup2).
  rewrite Hup in Hup2. injection Hup2 as <- ->.
  exists g'. split; [exact Hup|].
  rewrite (update_ok r g Hwf) in Hup. injection Hup as <- _.
  split; [exact Hrect|]. split; [reflexivity|]. split; [reflexivity|].
  exact Hcnt.
Qed.

(** What a frame needs and keeps: a well-formed world of fixed dimensions
    and a speed in [5, 120]. *)
Lemma frame_ok (W H cs : Z) (inp : FrameInput) (p : Program) :
  program_ok W H p -> cs <> 0 ->
  exists p' screen,
    frame cs inp p = Ok (p', screen) /\ program_ok W H p' /\
    length screen = (Z.to_nat W * Z.to_nat H)%nat.
Proof.
  intros (Hwf & HW & HH & Hsp) Hcs. unfold frame.
  rewrite poll_events_spec. cbn [fst snd].
  set (c := process_events (events inp) (controls p)).
  assert (Hc : game_world c =
               with_spawing (game_world (controls p))
                 (spawing (game_world c)))
    by apply process_events_world_eq.
  assert (Hwfc : wf (game_world c)) by (rewrite Hc; exact Hwf).
  assert (HWc : width (game_world c) = W) by (rewrite Hc; exact HW).
  assert (HHc : height (game_world c) = H) by (rewrite Hc; exact HH).
  assert (Hspc : 5 <= simulation_speed c <= 120)
    by (apply process_events_speed_range; exact Hsp).
  destruct (handle_mouse_input_wf (mouse inp) (game_world c) cs Hwfc Hcs)
    as (gw & Hgw & Hwfgw).
  destruct (handle_mouse_input_keeps _ _ _ _ Hgw) as [HWgw HHgw].
  rewrite Hgw. cbn [bind].
  assert (Hupd : exists upd,
            (if paused c then Ok (gw, random p) else update (random p) gw) =
            Ok upd /\ wf (fst upd) /\
            width (fst upd) = W /\ height (fst upd) = H).
  { destruct (paused c).
    - exists (gw, random p). split; [reflexivity|]. cbn [fst].
      split; [exact Hwfgw|]. split; congruence.
    - destruct (update_full (random p) gw Hwfgw)
        as (g' & Hup & Hwf' & HW' & HH' & _).
      eexists. split; [exact Hup|]. cbn [fst].
      split; [exact Hwf'|]. split; congruence. }
  destruct Hupd as (upd & -> & Hwfu & HWu & HHu). cbn [bind].
  rewrite (Grid_draw_fresh_screen _ Hwfu). cbn [bind].
  eexists. eexists. split; [reflexivity|]. split.
  - unfold program_ok. cbn [controls with_world game_world
      simulation_speed]. auto.
  - rewrite length_map, length_positions. congruence.
Qed.

Lemma main_loop_ok (W H cs : Z) (inputs : list FrameInput) (p : Program) :
  program_ok W H p -> cs <> 0 ->
  exists p' screens,
    main_loop cs inputs p = Ok (p', screens) /\ program_ok W H p' /\
    (length screens <= length inputs)%nat /\
    Forall (fun sc : Screen => length sc = (Z.to_nat W * Z.to_nat H)%nat)
      screens.
Proof.
  intros Hp Hcs. revert p Hp.
  induction inputs as [|inp inputs IH]; intros p Hp.
  - exists p, []. cbn. auto.
  - cbn [main_loop]. destruct (running p).
    + destruct (frame_ok W H cs inp p Hp Hcs) as (p1 & sc & -> & Hp1 & Hsc).
      cbn [bind fst snd].
      destruct (IH p1 Hp1) as (p2 & scs & -> & Hp2 & Hlen & Hall).
      cbn [bind fst snd]. eexists. eexists.
      split; [reflexivity|]. split; [exact Hp2|].
      split; [cbn; lia|]. now constructor.
    + exists p, []. cbn. split; [reflexivity|].
      split; [exact Hp|]. split; [lia|constructor].
Qed.

(** The program cannot crash in its loop: for every sequence of frame
    inputs and every state of the random module, [main] raises nothing;
    the world stays a well-formed 100 by 100 grid, the speed stays in
    [5, 120], and every frame presented paints all 10000 cells. *)
Theorem main_never_raises (inputs : list FrameInput) (r : Random) :
  exists p screens,
    main inputs r = Ok (p, screens) /\
    wf (game_world (controls p)) /\
    width (game_world (controls p)) = 100 /\
    height (game_world (controls p)) = 100 /\
    5 <= simulation_speed (controls p) <= 120 /\
    (length screens <= length inputs)%nat /\
    Forall (fun sc : Screen => Z.of_nat (length sc) = 10000) screens.
Proof.
  unfold main.
  destruct (main_loop_ok 100 100 8 inputs (main_start r))
    as (p & screens & Hrun & (Hwf & HW & HH & Hsp) & Hlen & Hall).
  - unfold program_ok, main_start. cbn [controls].
    split; [apply (Grid_init_wf 100 100 8)|]. cbn. lia.
  - discriminate.
  - exists p, screens. split; [exact Hrun|]. split; [exact Hwf|].
    split; [exact HW|]. split; [exact HH|]. split; [exact Hsp|].
    split; [exact Hlen|]. eapply Forall_impl; [exact Hall|].
    intros sc Hsc. cbn beta in Hsc. lia.
Qed.

(** While the program is paused a frame makes no generation step: it
    draws no random number, and the world it leaves is the world the
    mouse handler returned. *)
Theorem paused_frame_only_mouse
  (W H cs : Z) (inp : FrameInput) (p : Program) :
  program_ok W H p -> cs <> 0 ->
  paused (process_events (events inp) (controls p)) = true ->
  exists p' screen,
    frame cs inp p = Ok (p', screen) /\ random p' = random p /\
    handle_mouse_input (mouse inp)
      (game_world (process_events (events inp) (controls p))) cs =
    Ok (game_world (controls p')).
Proof.
  intros Hp Hcs Hpaused.
  destruct (frame_ok W H cs inp p Hp Hcs) as (p' & sc & Hfr & _ & _).
  exists p', sc. split; [exact Hfr|].
  unfold frame in Hfr. rewrite poll_events_spec in Hfr.
  cbn [fst snd] in Hfr. rewrite Hpaused in Hfr.
  destruct (handle_mouse_input _ _ _) as [gw|e]; cbn [bind] in Hfr;
    [|discriminate].
  cbn [fst snd] in Hfr.
  destruct (Grid_draw gw []) as [sc'|e]; cbn [bind] in Hfr; [|discriminate].
  injection Hfr as <- _. split; reflexivity.
Qed.

(** A frame in which the program runs ends with an exact counter, also
    when the mouse inverted a cell in that frame: the click comes before
    the generation step, which counts the grid it installs.  The step
    draws one random number per cell. *)
Theorem running_frame_recounts
  (W H cs : Z) (inp : FrameInput) (p : Program) :
  program_ok W H p -> cs <> 0 ->
  paused (process_events (events inp) (controls p)) = false ->
  exists p' screen,
    frame cs inp p = Ok (p', screen) /\
    alive_count (game_world (controls p')) =
      alive_in_cells (grid (game_world (controls p'))) /\
    random p' =
      mkRandom (tape (random p))
        (pos (random p) + Z.to_nat W * Z.to_nat H).
Proof.
  intros Hp Hcs Hrun. pose proof Hp as (Hwf & HW & HH & _).
  destruct (frame_ok W H cs inp p Hp Hcs) as (p' & sc & Hfr & _ & _).
  exists p', sc. split; [exact Hfr|].
  unfold frame in Hfr. rewrite poll_events_spec in Hfr.
  cbn [fst snd] in Hfr. rewrite Hrun in Hfr.
  set (c := process_events (events inp) (controls p)) in *.
  assert (Hc : game_world c =
               with_spawing (game_world (controls p))
                 (spawing (game_world c)))
    by apply process_events_world_eq.
  assert (Hwfc : wf (game_world c)) by (rewrite Hc; exact Hwf).
  destruct (handle_mouse_input_wf (mouse inp) (game_world c) cs Hwfc Hcs)
    as (gw & Hgw & Hwfgw).
  destruct (handle_mouse_input_keeps _ _ _ _ Hgw) as [HWgw HHgw].
  rewrite Hgw in Hfr. cbn [bind] in Hfr.
  destruct (update_full (random p) gw Hwfgw)
    as (g' & Hup & _ & _ & _ & Hcnt).
  rewrite Hup in Hfr. cbn [bind fst snd] in Hfr.
  destruct (Grid_draw g' []) as [sc'|e]; cbn [bind] in Hfr; [|discriminate].
  injection Hfr as <- _. cbn [controls random with_world game_world].
  split; [exact Hcnt|]. f_equal.
  rewrite HWgw, HHgw, Hc. cbn [with_spawing width height]. congruence.
Qed.

Lemma frame_controls (cs : Z) (inp : FrameInput) (p p' : Program)
  (screen : Screen) :
  frame cs inp p = Ok (p', screen) ->
  paused (controls p') = paused (process_events (events inp) (controls p)).
Proof.
  unfold frame. rewrite poll_events_spec. cbn [fst snd].
  destruct (handle_mouse_input _ _ _) as [gw|e]; cbn [bind]; [|discriminate].
  destruct (if paused _ then _ else _) as [upd|e]; cbn [bind];
    [|discriminate].
  destruct (Grid_draw _ _) as [sc|e]; cbn [bind]; [|discriminate].
  now intros [= <- _].
Qed.

Lemma frame_paused_random (cs : Z) (inp : FrameInput) (p p' : Program)
  (screen : Screen) :
  paused (process_events (events inp) (controls p)) = true ->
  frame cs inp p = Ok (p', screen) -> random p' = random p.
Proof.
  intros Hpaused. unfold frame. rewrite poll_events_spec. cbn [fst snd].
  rewrite Hpaused.
  destruct (handle_mouse_input _ _ _) as [gw|e]; cbn [bind]; [|discriminate].
  destruct (Grid_draw _ _) as [sc|e]; cbn [bind]; [|discriminate].
  now intros [= <- _].
Qed.

Lemma main_loop_paused (W H cs : Z) (inputs : list FrameInput) (p : Program) :
  program_ok W H p -> cs <> 0 -> paused (controls p) = true ->
  (forall inp, In inp inputs -> presses K_SPACE (events inp) = 0%nat) ->
  exists p' screens,
    main_loop cs inputs p = Ok (p', screens) /\
    random p' = random p /\ paused (controls p') = true.
Proof.
  intros Hp Hcs. revert p Hp.
  induction inputs as [|inp inputs IH]; intros p Hp Hpaused Hno.
  - exists p, []. auto.
  - cbn [main_loop]. destruct (running p); [|exists p, []; auto].
    destruct (frame_ok W H cs inp p Hp Hcs) as (p1 & sc & Hfr & Hp1 & _).
    assert (Hstill : paused (process_events (events inp) (controls p)) = true).
    { rewrite process_events_paused, Hpaused, (Hno inp (in_eq _ _)).
      reflexivity. }
    pose proof (frame_controls _ _ _ _ _ Hfr) as Hc1.
    pose proof (frame_paused_random _ _ _ _ _ Hstill Hfr) as Hr1.
    rewrite Hfr. cbn [bind fst snd].
    destruct (IH p1 Hp1) as (p2 & scs & -> & Hr2 & Hpa2).
    + now rewrite Hc1.
    + intros inp' Hin. apply Hno. now right.
    + cbn [bind fst snd]. eexists. eexists. split; [reflexivity|].
      split; [congruence|exact Hpa2].
Qed.

(** The program starts paused: as long as no frame brings a SPACE
    key-down, whatever else is pressed or clicked, no generation step runs
    and no random number is drawn. *)
Theorem main_waits_for_space (inputs : list FrameInput) (r : Random) :
  (forall inp, In inp inputs -> presses K_SPACE (events inp) = 0%nat) ->
  exists p screens,
    main inputs r = Ok (p, screens) /\ random p = r /\
    paused (controls p) = true.
Proof.
  intros Hno. unfold main.
  apply (main_loop_paused 100 100); try assumption.
  - unfold program_ok, main_start. cbn [controls].
    split; [apply (Grid_init_wf 100 100 8)|]. cbn. lia.
  - discriminate.
  - reflexivity.
Qed.

(** [Grid.__init__] builds a well-formed grid for any integers: every
    position inside holds a dead cell, no position outside holds a cell
    (a negative width or height gives a grid without cells), and the
    counter 0 is the number of alive cells. *)
Theorem Grid_init_all_dead (w h cs : Z) :
  wf (Grid_init w h cs) /\
  (forall x y, inside w h x y ->
     cell_at (grid (Grid_init w h cs)) x y = Some (mkCell false)) /\
  (forall x y, ~ inside w h x y ->
     cell_at (grid (Grid_init w h cs)) x y = None) /\
  alive_in_cells (grid (Grid_init w h cs)) = alive_count (Grid_init w h cs) /\
  alive_count (Grid_init w h cs) = 0.
Proof.
  pose proof (Grid_init_wf w h cs) as Hwf.
  split; [exact Hwf|]. split; [|split].
  - intros x y [Hx Hy].
    destruct (rect_cell_at _ _ _ x y Hwf) as (_ & c & _ & _ & _ & Hat);
      cbn [Grid_init width height]; try lia.
    rewrite Hat. f_equal. rewrite <- (cell_eta c). f_equal.
    rewrite <- (alive_at_cell _ _ _ _ Hat). apply fresh_cells_alive_at.
  - intros x y Hout. apply (cell_at_outside _ _ _ _ _ Hwf).
    cbn [Grid_init width height]. unfold inside in Hout. lia.
  - cbn [Grid_init grid alive_count].
    split; [apply fresh_cells_none_alive|reflexivity].
Qed.

(** ** The further theorems at concrete inputs *)

Lemma speed_stays_multiple_of_5_witness :
  simulation_speed main_init mod 5 = 0 /\
  simulation_speed
    (process_events [KEYDOWN K_EQUALS; KEYDOWN K_MINUS; KEYDOWN K_MINUS]
       main_init) mod 5 = 0.
Proof.
  split; [reflexivity|].
  apply (speed_stays_multiple_of_5
           [KEYDOWN K_EQUALS; KEYDOWN K_MINUS; KEYDOWN K_MINUS] main_init).
  reflexivity.
Defined.

Lemma speed_keys_undo_each_other_witness :
  5 <= simulation_speed main_init <= 115 /\
  simulation_speed
    (process_events [KEYDOWN K_EQUALS; KEYDOWN K_MINUS] main_init) =
  simulation_speed main_init.
Proof.
  split; [cbn; lia|].
  apply (proj1 (speed_keys_undo_each_other main_init)). cbn. lia.
Defined.

Lemma mouse_click_toggles_one_cell_witness :
  wf block /\ 8 <> 0 /\ inside (width block) (height block) (9 / 8) (3 / 8) /\
  exists g',
    handle_mouse_input (click_at 9 3) block 8 = Ok g' /\ wf g' /\
    alive_at (grid g') (9 / 8) (3 / 8) =
      negb (alive_at (grid block) (9 / 8) (3 / 8)).
Proof.
  assert (Hwf : wf block) by solve_rect.
  assert (Hcs : 8 <> 0) by lia.
  assert (Hin : inside (width block) (height block) (9 / 8) (3 / 8))
    by (vm_compute; repeat split; discriminate).
  split; [exact Hwf|]. split; [exact Hcs|]. split; [exact Hin|].
  destruct (mouse_click_toggles_one_cell block 8 9 3 Hwf Hcs Hin)
    as (g' & H1 & H2 & H3 & _).
  exists g'. auto.
Defined.

Lemma mouse_click_outside_ignored_witness :
  8 <> 0 /\ ~ inside (width block) (height block) (-5 / 8) (3 / 8) /\
  handle_mouse_input (click_at (-5) 3) block 8 = Ok block.
Proof.
  assert (Hcs : 8 <> 0) by lia.
  assert (Hout : ~ inside (width block) (height block) (-5 / 8) (3 / 8))
    by (vm_compute; intros [[H _] _]; apply H; reflexivity).
  split; [exact Hcs|]. split; [exact Hout|].
  apply (mouse_click_outside_ignored block 8 (-5) 3 Hcs Hout).
Defined.

Lemma mouse_poll_twice_restores_witness :
  wf block /\ 8 <> 0 /\
  exists g1, handle_mouse_input (click_at 9 3) block 8 = Ok g1 /\
             handle_mouse_input (click_at 9 3) g1 8 = Ok block.
Proof.
  assert (Hwf : wf block) by solve_rect.
  assert (Hcs : 8 <> 0) by lia.
  split; [exact Hwf|]. split; [exact Hcs|].
  apply (mouse_poll_twice_restores (click_at 9 3) block 8 Hwf Hcs).
Defined.



Lemma draw_determines_cells_witness :
  wf block /\ wf block_stale /\ width block = width block_stale /\
  height block = height block_stale /\
  Grid_draw block [] = Grid_draw block_stale [] /\
  grid block = grid block_stale.
Proof.
  assert (H1 : wf block) by solve_rect.
  assert (H2 : wf block_stale) by solve_rect.
  assert (H3 : Grid_draw block [] = Grid_draw block_stale [])
    by reflexivity.
  repeat (split; [first [assumption | reflexivity]|]).
  apply (draw_determines_cells block block_stale H1 H2
           (eq_refl _) (eq_refl _) H3).
Defined.


Lemma update_draws_once_per_cell_witness :
  wf blinker /\
  exists g',
    update tape1 blinker =
    Ok (g', mkRandom (tape tape1)
              (pos tape1 + Z.to_nat (width blinker) * Z.to_nat (height blinker))).
Proof.
  split; [solve_rect|].
  apply (update_draws_once_per_cell tape1 blinker). solve_rect.
Defined.

Lemma update_alive_count_bounds_witness :
  wf blinker /\
  exists g' r', update tape0 blinker = Ok (g', r') /\
    0 <= alive_count g' <= Z.max 0 (width blinker) * Z.max 0 (height blinker) /\
    cell_size g' = cell_size blinker /\ spawing g' = spawing blinker.
Proof.
  split; [solve_rect|].
  apply (update_alive_count_bounds tape0 blinker). solve_rect.
Defined.

Lemma update_keeps_dead_grid_witness :
  wf (Grid_init 2 3 8) /\ spawing (Grid_init 2 3 8) = false /\
  alive_in_cells (grid (Grid_init 2 3 8)) = 0 /\
  exists g' r', update tape1 (Grid_init 2 3 8) = Ok (g', r') /\
    grid g' = grid (Grid_init 2 3 8) /\ alive_count g' = 0.
Proof.
  split; [solve_rect|]. split; [reflexivity|]. split; [reflexivity|].
  apply (update_keeps_dead_grid tape1 (Grid_init 2 3 8));
    [solve_rect|reflexivity|reflexivity].
Defined.


Lemma check_neighbors_any_position_witness :
  rect 2 2 (grid block) /\
  exists n, check_neighbors (mkCell false) (grid block) 5 (-3) = Ok n /\
    0 <= n <= 8 /\ (5 < -1 \/ 2 < 5 \/ -3 < -1 \/ 2 < -3 -> n = 0).
Proof.
  split; [solve_rect|].
  apply (check_neighbors_any_position 2 2 (mkCell false) (grid block) 5 (-3)).
  solve_rect.
Defined.

Lemma check_neighbors_after_write_witness :
  rect 2 2 (grid block) /\ inside 2 2 1 1 /\
  exists g', set_is_alive (grid block) 1 1 false = Ok g' /\
    (adjacent 0 0 1 1 ->
     check_neighbors (mkCell true) g' 0 0 =
     Ok (alive_neighbors (grid block) 0 0 + Z.b2z false -
         Z.b2z (alive_at (grid block) 1 1))) /\
    (~ adjacent 0 0 1 1 ->
     check_neighbors (mkCell true) g' 0 0 =
     check_neighbors (mkCell true) (grid block) 0 0).
Proof.
  split; [solve_rect|]. split; [unfold inside; lia|].
  apply (check_neighbors_after_write 2 2 (mkCell true) (grid block) 0 0 1 1
           false); [solve_rect|unfold inside; lia].
Defined.

Lemma quit_ends_loop_witness :
  In QUIT (events (mkFrameInput [KEYDOWN K_SPACE; QUIT] idle_mouse)) /\
  main_loop 8
    [mkFrameInput [KEYDOWN K_SPACE; QUIT] idle_mouse;
     mkFrameInput [] (click_at 9 3)]
    (small_program block_paused) =
  main_loop 8 [mkFrameInput [KEYDOWN K_SPACE; QUIT] idle_mouse]
    (small_program block_paused).
Proof.
  split; [right; left; reflexivity|].
  apply (quit_ends_loop 8 (mkFrameInput [KEYDOWN K_SPACE; QUIT] idle_mouse)
           [mkFrameInput [] (click_at 9 3)] (small_program block_paused)).
  right. left. reflexivity.
Defined.

Lemma paused_frame_only_mouse_witness :
  program_ok 2 2 (small_program block_paused) /\ 8 <> 0 /\
  paused (process_events (events (mkFrameInput [KEYDOWN K_s] (click_at 9 3)))
            (controls (small_program block_paused))) = true /\
  exists p' screen,
    frame 8 (mkFrameInput [KEYDOWN K_s] (click_at 9 3))
      (small_program block_paused) = Ok (p', screen) /\
    random p' = random (small_program block_paused).
Proof.
  assert (Hp : program_ok 2 2 (small_program block_paused)).
  { split; [solve_rect|]. cbn. lia. }
  assert (Hcs : 8 <> 0) by lia.
  split; [exact Hp|]. split; [exact Hcs|]. split; [reflexivity|].
  destruct (paused_frame_only_mouse 2 2 8
              (mkFrameInput [KEYDOWN K_s] (click_at 9 3))
              (small_program block_paused) Hp Hcs (eq_refl _))
    as (p' & sc & H1 & H2 & _).
  exists p', sc. auto.
Defined.

Lemma running_frame_recounts_witness :
  program_ok 2 2 (small_program block_paused) /\ 8 <> 0 /\
  paused (process_events
            (events (mkFrameInput [KEYDOWN K_SPACE] (click_at 9 3)))
            (controls (small_program block_paused))) = false /\
  exists p' screen,
    frame 8 (mkFrameInput [KEYDOWN K_SPACE] (click_at 9 3))
      (small_program block_paused) = Ok (p', screen) /\
    alive_count (game_world (controls p')) =
      alive_in_cells (grid (game_world (controls p'))).
Proof.
  assert (Hp : program_ok 2 2 (small_program block_paused)).
  { split; [solve_rect|]. cbn. lia. }
  assert (Hcs : 8 <> 0) by lia.
  split; [exact Hp|]. split; [exact Hcs|]. split; [reflexivity|].
  destruct (running_frame_recounts 2 2 8
              (mkFrameInput [KEYDOWN K_SPACE] (click_at 9 3))
              (small_program block_paused) Hp Hcs (eq_refl _))
    as (p' & sc & H1 & H2 & _).
  exists p', sc. auto.
Defined.

Lemma main_waits_for_space_witness :
  (forall inp, In inp [mkFrameInput [KEYDOWN K_s] (click_at 9 3)] ->
     presses K_SPACE (events inp) = 0%nat) /\
  exists p screens,
    main [mkFrameInput [KEYDOWN K_s] (click_at 9 3)] tape1 = Ok (p, screens) /\
    random p = tape1 /\ paused (controls p) = true.
Proof.
  assert (Hno : forall inp,
            In inp [mkFrameInput [KEYDOWN K_s] (click_at 9 3)] ->
            presses K_SPACE (events inp) = 0%nat).
  { intros inp [<-|[]]. reflexivity. }
  split; [exact Hno|].
  apply (main_waits_for_space
           [mkFrameInput [KEYDOWN K_s] (click_at 9 3)] tape1 Hno).
Defined.
